(** * MM Purchasing Remediator (SAP Note 1803189): scan for deprecated
    purchasing APIs in ABAP text.

    A shallow embedding of [src/app/main.py]: the reference tables, the five
    compiled patterns, [_mk_suggested_statement], [_add_hit],
    [find_mm_purchasing_issues] and [remediate_mm_purchasing], together with
    a model of the part of Python's [re] module the patterns use
    (a backtracking matcher, [search] and [finditer]).

    Python [str] values are modelled as [string]; a character is a code point
    in the range U+0000..U+00FF, and the character classes below are Python's
    Unicode classes restricted to that range. *)

From Stdlib Require Import String Ascii List Bool Arith NArith Lia Permutation.
Import ListNotations.
Local Open Scope string_scope.
Local Open Scope list_scope.

Set Implicit Arguments.

(* ------------------------------------------------------------------ *)
(** ** Characters *)

Module Char.

Definition code (c : ascii) : N := N_of_ascii c.

Definition in_range (lo hi : N) (c : ascii) : bool :=
  ((lo <=? code c) && (code c <=? hi))%N.

(** [\s] on a [str] pattern: Python's [str.isspace] characters. *)
Definition is_space (c : ascii) : bool :=
  in_range 9 13 c || in_range 28 32 c
  || (code c =? 133)%N || (code c =? 160)%N.

(** [str.isalnum]: letters, decimal digits, digits and numerics. *)
Definition is_alnum (c : ascii) : bool :=
  in_range 48 57 c || in_range 65 90 c || in_range 97 122 c
  || (code c =? 170)%N || in_range 178 179 c || (code c =? 181)%N
  || in_range 185 186 c || in_range 188 190 c
  || in_range 192 214 c || in_range 216 246 c || in_range 248 255 c.

(** [\w] on a [str] pattern. *)
Definition is_word (c : ascii) : bool :=
  is_alnum c || (code c =? 95)%N.

(** Simple lowercase mapping of one character. *)
Definition lower (c : ascii) : ascii :=
  if in_range 65 90 c || in_range 192 214 c || in_range 216 222 c
  then ascii_of_N (code c + 32) else c.

(** Simple uppercase mapping of one character.  The uppercase forms of
    U+00B5, U+00DF and U+00FF lie outside the modelled range; these three
    characters are left as they are.  [upper] is applied to text captured
    by the [stmt] and [name] groups only, which cannot contain them
    (see [ci_eq_ascii_letter]). *)
Definition upper (c : ascii) : ascii :=
  if in_range 97 122 c || in_range 224 246 c || in_range 248 254 c
  then ascii_of_N (code c - 32) else c.

(** A pattern literal [x] against a text character [y] under
    [re.IGNORECASE]. *)
Definition ci_eq (x y : ascii) : bool := Ascii.eqb (lower x) (lower y).

(** A class range [lo-hi] under [re.IGNORECASE]. *)
Definition range_ci (lo hi : N) (c : ascii) : bool :=
  in_range lo hi c || in_range lo hi (lower c) || in_range lo hi (upper c).

Definition is_quote (c : ascii) : bool :=
  (code c =? 39)%N || (code c =? 34)%N.

Definition not_dot (c : ascii) : bool := negb (code c =? 46)%N.

End Char.

(** [str.upper()], [str.startswith], [len], slices. *)
Fixpoint str_upper (s : string) : string :=
  match s with
  | EmptyString => EmptyString
  | String c s' => String (Char.upper c) (str_upper s')
  end.

Definition startswith (s p : string) : bool := String.prefix p s.

Definition len (s : string) : nat := String.length s.

(** [t[i:j]] for [0 <= i <= j]. *)
Definition slice (t : string) (i j : nat) : string := substring i (j - i) t.

(** [sep.join(l)]. *)
Definition join (sep : string) (l : list string) : string := String.concat sep l.

(* ------------------------------------------------------------------ *)
(** ** Exceptions *)

Inductive exn := IndexError | KeyError | AttributeError.

Inductive result (A : Type) :=
| Ok (a : A)
| Raise (e : exn).
Arguments Ok {A} a.
Arguments Raise {A} e.

Definition bind {A B} (m : result A) (f : A -> result B) : result B :=
  match m with
  | Ok a => f a
  | Raise e => Raise e
  end.

Notation "x <- m ;; f" := (bind m (fun x => f))
  (at level 61, m at next level, right associativity).

(** A value that may be [None]; using it raises [e]. *)
Definition expect {A} (e : exn) (o : option A) : result A :=
  match o with
  | Some a => Ok a
  | None => Raise e
  end.

(** A [for] loop whose body updates an accumulator and may raise. *)
Fixpoint for_each {A S} (body : S -> A -> result S) (l : list A) (s : S)
  : result S :=
  match l with
  | [] => Ok s
  | a :: l' => s' <- body s a ;; for_each body l' s'
  end.

(* ------------------------------------------------------------------ *)
(** ** The pattern language and the backtracking matcher *)

Module Re.

(** The constructs the five patterns use.  All patterns are compiled with
    [re.IGNORECASE]; [LitI] is a literal under that flag. *)
Inductive re :=
| Eps
| Chr (p : ascii -> bool)          (* one character of a class *)
| LitI (s : string)                (* a literal, case-insensitive *)
| Seq (a b : re)
| Alt (a b : re)                   (* a|b, left first *)
| Opt (a : re)                     (* a?, greedy *)
| Star (p : ascii -> bool)         (* [class]*, greedy *)
| WordB                            (* \b *)
| Grp (g : string) (a : re).       (* (?P<g>a) *)

(** [class]+ *)
Definition Plus (p : ascii -> bool) : re := Seq (Chr p) (Star p).

(** The alternatives joined by a bar. *)
Fixpoint alts (l : list re) : re :=
  match l with
  | [] => Eps
  | [r] => r
  | r :: l' => Alt r (alts l')
  end.

(** A position in the subject: the text before it (nearest character
    first), the text after it, and the groups closed so far. *)
Record cursor := Cursor {
  bef : list ascii;
  aft : list ascii;
  marks : list (string * (nat * nat))
}.

Definition pos (c : cursor) : nat := length (bef c).

Definition set_mark (g : string) (sp : nat * nat) (c : cursor) : cursor :=
  Cursor (bef c) (aft c) ((g, sp) :: marks c).

Fixpoint lookup (g : string) (l : list (string * (nat * nat)))
  : option (nat * nat) :=
  match l with
  | [] => None
  | (g', sp) :: l' => if String.eqb g g' then Some sp else lookup g l'
  end.

Definition word_at (o : option ascii) : bool :=
  match o with
  | Some c => Char.is_word c
  | None => false
  end.

(** [\b]: exactly one side of the position is a word character. *)
Definition boundary (c : cursor) : bool :=
  xorb (word_at (hd_error (bef c))) (word_at (hd_error (aft c))).

Fixpoint lit_i (s : string) (c : cursor) : option cursor :=
  match s with
  | EmptyString => Some c
  | String x s' =>
      match aft c with
      | y :: a' =>
          if Char.ci_eq x y
          then lit_i s' (Cursor (y :: bef c) a' (marks c))
          else None
      | [] => None
      end
  end.

Section Matcher.
Variable A : Type.

(** Greedy repetition of a class: take as many characters as possible,
    give back one at a time while the rest of the pattern fails. *)
Fixpoint star (p : ascii -> bool) (k : cursor -> option A)
         (b a : list ascii) (mk : list (string * (nat * nat)))
  : option A :=
  match a with
  | y :: a' =>
      if p y
      then match star p k (y :: b) a' mk with
           | Some x => Some x
           | None => k (Cursor b a mk)
           end
      else k (Cursor b a mk)
  | [] => k (Cursor b [] mk)
  end.

(** [bt r k c]: match [r] at [c], then the rest of the pattern [k];
    alternatives are tried in priority order and the first success
    wins. *)
Fixpoint bt (r : re) (k : cursor -> option A) (c : cursor) : option A :=
  match r with
  | Eps => k c
  | Chr p =>
      match aft c with
      | y :: a' => if p y then k (Cursor (y :: bef c) a' (marks c))
                   else None
      | [] => None
      end
  | LitI s =>
      match lit_i s c with
      | Some c' => k c'
      | None => None
      end
  | Seq a b => bt a (bt b k) c
  | Alt a b =>
      match bt a k c with
      | Some x => Some x
      | None => bt b k c
      end
  | Opt a =>
      match bt a k c with
      | Some x => Some x
      | None => k c
      end
  | Star p => star p k (bef c) (aft c) (marks c)
  | WordB => if boundary c then k c else None
  | Grp g a => bt a (fun c' => k (set_mark g (pos c, pos c') c')) c
  end.
End Matcher.

(** The end of the pattern.  After an empty match, the next match must
    not be empty at the same position. *)
Definition accept (must_advance : bool) (start : nat) (c : cursor)
  : option cursor :=
  if must_advance && Nat.eqb (pos c) start then None else Some c.

(** A match object: the subject and the groups. *)
Record mtch := Match {
  m_string : string;
  m_marks : list (string * (nat * nat))
}.

(** [m.span(g)]; [None] when the pattern has no group [g]. *)
Definition span (m : mtch) (g : string) : option (nat * nat) :=
  lookup g (m_marks m).

(** [m.group(g)]. *)
Definition group (m : mtch) (g : string) : option string :=
  match span m g with
  | Some (i, j) => Some (slice (m_string m) i j)
  | None => None
  end.

(** [search]: the first position from the cursor at which the pattern
    matches; the result is the cursor at the end of the match. *)
Fixpoint search (r : re) (must_advance : bool) (b a : list ascii)
  : option (nat * cursor) :=
  match bt r (accept must_advance (length b)) (Cursor b a []) with
  | Some c' => Some (length b, c')
  | None =>
      match a with
      | [] => None
      | y :: a' => search r false (y :: b) a'
      end
  end.

Fixpoint finditer_from (fuel : nat) (r : re) (txt : string)
         (must_advance : bool) (b a : list ascii) : list mtch :=
  match fuel with
  | O => []
  | S fuel' =>
      match search r must_advance b a with
      | None => []
      | Some (start, c') =>
          Match txt (marks c')
          :: finditer_from fuel' r txt (Nat.eqb (pos c') start) (bef c') (aft c')
      end
  end.

(** [r.finditer(txt)], as the list of the matches it yields.  Every
    iteration either consumes a character or forces the next one to,
    so twice the length of the text (and two) bounds their number. *)
Definition finditer (r : re) (txt : string) : list mtch :=
  finditer_from (2 * len txt + 2) r txt false [] (list_ascii_of_string txt).

End Re.
Import Re.

(* ------------------------------------------------------------------ *)
(** ** Reference mappings (1803189) *)

(** A [dict] with [str] keys, in insertion order. *)
Definition dict (V : Type) := list (string * V).

Fixpoint dict_get {V} (d : dict V) (k : string) : option V :=
  match d with
  | [] => None
  | (k', v) :: d' => if String.eqb k k' then Some v else dict_get d' k
  end.

Definition dict_keys {V} (d : dict V) : list string := map fst d.

Definition dict_mem {V} (k : string) (d : dict V) : bool :=
  match dict_get d k with
  | Some _ => true
  | None => false
  end.

(** Classic -> Enjoy (Transactions) *)
Definition TXN_MAP : dict (list string) :=
  [ ("ME21", ["ME21N"]);
    ("ME22", ["ME22N"]);
    ("ME23", ["ME23N"]);
    ("ME24", ["ME21N"; "ME22N"]);
    ("ME25", ["ME21N"]);
    ("ME27", ["ME21N"]);
    ("ME28", ["ME29N"]);
    ("ME51", ["ME51N"]);
    ("ME52", ["ME52N"]);
    ("ME53", ["ME53N"]);
    ("ME54", ["ME54N"]);
    ("ME59", ["ME59N"]) ].

(** The inner dictionaries of the function-module tables: the keys
    [new] and [note]. *)
Record fm_info := FmInfo { fm_new : string; fm_note : option string }.

(** BAPI & FM replacements *)
Definition BAPI_MAP : dict fm_info :=
  [ ("BAPI_PO_CREATE", FmInfo "BAPI_PO_CREATE1" (Some "Use Enjoy PO BAPI."));
    ("BAPI_PO_GETDETAIL",
       FmInfo "BAPI_PO_GETDETAIL1" (Some "Use Enjoy PO BAPI."));
    ("BAPI_REQUISITION_CREATE",
       FmInfo "BAPI_PR_CREATE" (Some "Use PR Enjoy BAPI."));
    ("BAPI_REQUISITION_CHANGE",
       FmInfo "BAPI_PR_CHANGE" (Some "Use PR Enjoy BAPI."));
    ("BAPI_REQUISITION_DELETE",
       FmInfo "BAPI_PR_CHANGE" (Some "Delete via CHANGE in Enjoy BAPI."));
    ("BAPI_REQUISITION_GETDETAIL",
       FmInfo "BAPI_PR_GETDETAIL" (Some "Use PR Enjoy BAPI.")) ].

(** IDoc input function modules *)
Definition IDOC_MAP : dict fm_info :=
  [ ("IDOC_INPUT_PORDCR",
       FmInfo "IDOC_INPUT_PORDCR1" (Some "Use new PO IDoc FM (BUS2012)."));
    ("IDOC_INPUT_PORDCH",
       FmInfo "IDOC_INPUT_PORDCH" (Some "Ensure BUS2012 version is used."));
    ("IDOC_INPUT_PREQCR",
       FmInfo "IDOC_INPUT_PREQCR1" (Some "Use new PR IDoc FM (BUS2105).")) ].

(** The inner dictionaries of the report table: the keys [new] and
    [obj]. *)
Record report_info := ReportInfo { rp_new : string; rp_obj : string }.

(** Archiving reports: ECC 6.0 EhP4+ -> 70; older 47/30 obsolete *)
Definition ARCHIVE_REPORT_MAP : dict report_info :=
  [ ("RM06EV47", ReportInfo "RM06EV70" "MM_EKKO");
    ("RM06EW47", ReportInfo "RM06EW70" "MM_EKKO");
    ("RM06ED47", ReportInfo "RM06ED70" "MM_EKKO");
    ("RM06BV47", ReportInfo "RM06BV70" "MM_EBAN");
    ("RM06BW47", ReportInfo "RM06BW70" "MM_EBAN");
    ("RM06BD47", ReportInfo "RM06BD70" "MM_EBAN");
    ("RM06IW47", ReportInfo "RM06IW70" "MM_EINA");
    ("RM06ID47", ReportInfo "RM06ID70" "MM_EINA") ].

(** Very old archiving, suffix 30 -> generic advice to move to 70 *)
Definition ARCHIVE_30_PREFIXES : list string := ["RM06E"; "RM06B"; "RM06I"].

(** Read programs: still usable, but recommend SARI.  A [set]: its
    iteration order is not fixed by the language; the order written here
    is one of them, and [read_names_order_irrelevant] shows that the
    matches of the pattern built from it do not depend on the choice. *)
Definition READ_REPORTS : list string := ["RM06ER30"; "RM06BR30"; "RM06IR30"].

(* ------------------------------------------------------------------ *)
(** ** Regexes *)

(** [sorted(l, key=len, reverse=True)]: stable, longest first. *)
Fixpoint insert_by_len (x : string) (l : list string) : list string :=
  match l with
  | [] => [x]
  | y :: l' => if len y <=? len x then x :: l else y :: insert_by_len x l'
  end%nat.

Definition sorted_by_len_desc (l : list string) : list string :=
  fold_right insert_by_len [] l.

(** The escaped names joined by a bar: the names hold letters, digits and
    underscores only, which [re.escape] leaves to match themselves. *)
Definition names_re (names : list string) : re := alts (map LitI names).

Definition ws1 : re := Plus Char.is_space.           (* \s+ *)
Definition ws0 : re := Star Char.is_space.           (* \s* *)
Definition quote : re := Chr Char.is_quote.          (* a quote character *)
Definition dot : re := Chr (fun c => negb (Char.not_dot c)). (* an escaped dot *)
Definition to_dot : re := Seq (Star Char.not_dot) dot.  (* no dot, then a dot *)

(** CALL TRANSACTION / SUBMIT for transactions *)
Definition TXN_NAMES : list string := sorted_by_len_desc (dict_keys TXN_MAP).

Definition txn_keyword : re :=       (* CALL\s+TRANSACTION|SUBMIT *)
  Alt (Seq (LitI "CALL") (Seq ws1 (LitI "TRANSACTION"))) (LitI "SUBMIT").
Definition txn_gap : re := Seq ws1 (Opt quote).
Definition txn_tail : re := Seq (Opt quote) (Seq ws0 (Opt dot)).

Definition TXN_RE : re :=
  Grp "full"
    (Seq (Grp "stmt" txn_keyword)
    (Seq txn_gap
    (Seq (Grp "name" (names_re TXN_NAMES))
         txn_tail))).

(** CALL FUNCTION for BAPIs/IDoc FMs.  The names come from a [set] union,
    taken here as the keys of the one table followed by the keys of the
    other; [func_names_order_irrelevant] shows that the matches do not
    depend on that order. *)
Definition FUNC_NAMES : list string :=
  sorted_by_len_desc (dict_keys BAPI_MAP ++ dict_keys IDOC_MAP).

Definition func_keyword : re :=      (* CALL\s+FUNCTION *)
  Seq (LitI "CALL") (Seq ws1 (LitI "FUNCTION")).
Definition func_gap : re := Seq ws1 quote.
Definition func_tail : re := Seq quote to_dot.

Definition func_re (names : list string) : re :=
  Grp "full"
    (Seq func_keyword
    (Seq func_gap
    (Seq (Grp "name" (names_re names))
         func_tail))).

Definition FUNC_RE : option re :=
  match FUNC_NAMES with
  | [] => None
  | _ => Some (func_re FUNC_NAMES)
  end.

(** The shape shared by the three report patterns:
    SUBMIT, white space, the name group, a word boundary, and the text up
    to and including the next dot. *)
Definition submit_keyword : re := LitI "SUBMIT".
Definition submit_tail : re := Seq WordB to_dot.

Definition submit_re (name : re) : re :=
  Grp "full"
    (Seq (Grp "stmt" submit_keyword)
    (Seq ws1
    (Seq (Grp "name" name)
         submit_tail))).

(** SUBMIT for archiving reports, 47 -> 70 *)
Definition ARCH47_NAMES : list string :=
  sorted_by_len_desc (dict_keys ARCHIVE_REPORT_MAP).

Definition ARCH47_RE : re := submit_re (names_re ARCH47_NAMES).

(** SUBMIT for the 30 family (very old) *)
Definition arch30_name : re :=       (* (?:prefixes)[A-Z]*30 *)
  Seq (names_re ARCHIVE_30_PREFIXES)
      (Seq (Star (Char.range_ci 65 90)) (LitI "30")).

Definition ARCH30_RE : re := submit_re arch30_name.

(** SUBMIT read-programs (still usable; recommend SARI) *)
Definition READ_RE : re := submit_re (names_re READ_REPORTS).

(* ------------------------------------------------------------------ *)
(** ** Models *)

Record Unit := {
  pgm_name : string;
  inc_name : string;
  type_ : string;
  name : option string;
  class_implementation : option string;
  start_line : option nat;
  end_line : option nat;
  code : option string
}.

(** A suggestion record; [note = None] is a record without that key. *)
Record hit := Hit {
  table : string;
  target_type : string;
  target_name : string;
  start_char_in_unit : nat;
  end_char_in_unit : nat;
  used_fields : list string;
  ambiguous : bool;
  suggested_statement : string;
  suggested_fields : option (list string);
  note : option string
}.

(* ------------------------------------------------------------------ *)
(** ** Helpers *)

(** [news[0]] *)
Definition first (news : list string) : result string :=
  expect IndexError (hd_error news).

Definition _mk_suggested_statement (kind old : string) (news : list string)
           (stmt : string) : result string :=
  let up := str_upper stmt in
  if kind =? "txn" then
    if (length news =? 1)%nat then
      n <- first news ;;
      if startswith up "SUBMIT"
      then Ok ("SUBMIT " ++ n ++ ".")%string
      else Ok ("CALL TRANSACTION '" ++ n ++ "'.")%string
    else
      if startswith up "SUBMIT"
      then Ok (join " or " (map (fun n => "SUBMIT " ++ n ++ ".")%string news))
      else Ok (join " or "
                 (map (fun n => "CALL TRANSACTION '" ++ n ++ "'.")%string news))
  else if kind =? "func" then
    n <- first news ;; Ok ("CALL FUNCTION '" ++ n ++ "'.")%string
  else if kind =? "report" then
    n <- first news ;; Ok ("SUBMIT " ++ n ++ ".")%string
  else Ok "".

(** [if note:] a note that is [None] or empty is not stored. *)
Definition truthy (o : option string) : option string :=
  match o with
  | Some "" => None
  | _ => o
  end.

Definition _add_hit (hits : list hit) (span : nat * nat)
           (target_type target_name suggested_statement : string)
           (note : option string) (ambiguous : bool) : list hit :=
  let meta := {|
    table := "None";
    target_type := target_type;
    target_name := target_name;
    start_char_in_unit := fst span;
    end_char_in_unit := snd span;
    used_fields := [];
    ambiguous := ambiguous;
    suggested_statement := suggested_statement;
    suggested_fields := None;
    note := truthy note
  |} in
  hits ++ [meta].

(** [m.group(g)] followed by a method call on the result. *)
Definition group_of (m : mtch) (g : string) : result string :=
  expect AttributeError (group m g).

(** [m.span(g)] *)
Definition span_of (m : mtch) (g : string) : result (nat * nat) :=
  expect IndexError (span m g).

(** The bodies of the five loops of [find_mm_purchasing_issues]. *)

(** 1) Transactions *)
Definition txn_body (issues : list hit) (m : mtch) : result (list hit) :=
  stmt <- group_of m "stmt" ;;
  nm <- group_of m "name" ;;
  let name := str_upper nm in
  let repls := match dict_get TXN_MAP name with Some l => l | None => [] end in
  match repls with
  | [] => Ok issues
  | _ =>
      let ambiguous := (1 <? length repls)%nat in
      suggested <- _mk_suggested_statement "txn" name repls stmt ;;
      let note := None in
      let note :=
        if name =? "ME25"
        then Some "ME25 functions available via ME21N (use Hold / Enjoy features)."
        else note in
      let note :=
        if name =? "ME27"
        then Some "PO without material: create via ME21N."
        else note in
      sp <- span_of m "full" ;;
      Ok (_add_hit issues sp "Transaction" name suggested note ambiguous)
  end.

(** 2) BAPIs & IDoc input FMs *)
Definition func_body (issues : list hit) (m : mtch) : result (list hit) :=
  nm <- group_of m "name" ;;
  let name := str_upper nm in
  let stmt := "CALL FUNCTION" in
  if dict_mem name BAPI_MAP then
    info <- expect KeyError (dict_get BAPI_MAP name) ;;
    let new := fm_new info in
    let note := fm_note info in
    suggested <- _mk_suggested_statement "func" name [new] stmt ;;
    sp <- span_of m "full" ;;
    Ok (_add_hit issues sp "FunctionModule" name suggested note false)
  else if dict_mem name IDOC_MAP then
    info <- expect KeyError (dict_get IDOC_MAP name) ;;
    let new := fm_new info in
    let note := fm_note info in
    suggested <- _mk_suggested_statement "func" name [new] stmt ;;
    let ambiguous := new =? name in
    sp <- span_of m "full" ;;
    Ok (_add_hit issues sp "FunctionModule" name suggested note ambiguous)
  else Ok issues.

(** 3) Archiving reports 47 -> 70 *)
Definition arch47_body (issues : list hit) (m : mtch) : result (list hit) :=
  nm <- group_of m "name" ;;
  let name := str_upper nm in
  match dict_get ARCHIVE_REPORT_MAP name with
  | Some info =>
      suggested <-
        _mk_suggested_statement "report" name [rp_new info] "SUBMIT" ;;
      let note :=
        ("Archiving Object " ++ rp_obj info
           ++ ": use *70 reports (EhP4+).")%string in
      sp <- span_of m "full" ;;
      Ok (_add_hit issues sp "Report" name suggested (Some note) false)
  | None => Ok issues
  end.

(** 4) Very old 30 archiving reports -> replace by the 70 family *)
Definition arch30_body (issues : list hit) (m : mtch) : result (list hit) :=
  nm <- group_of m "name" ;;
  let name := str_upper nm in
  let family := slice name 0 5 in
  let family_note := "Move to RM06**70 reports (EhP4+)." in
  let suggested := "SUBMIT <corresponding RM06**70 report>." in
  sp <- span_of m "full" ;;
  Ok (_add_hit issues sp "Report" name suggested (Some family_note) true).

(** 5) Read programs (still usable) -> recommend SARI *)
Definition read_body (issues : list hit) (m : mtch) : result (list hit) :=
  nm <- group_of m "name" ;;
  let name := str_upper nm in
  let note :=
    "Read programs still usable; consider using Archive Information System (SARI)." in
  let suggested :=
    "Use transaction SARI for displaying archived MM Purchasing documents." in
  sp <- span_of m "full" ;;
  Ok (_add_hit issues sp "Report" name suggested (Some note) true).

(** The scan.  [txt] may be [None]; [issues] is threaded through the five
    loops in the order of the source. *)
Definition find_mm_purchasing_issues (txt : option string)
  : result (list hit) :=
  match txt with
  | None | Some "" => Ok []
  | Some txt =>
      let issues := [] in
      issues <- for_each txn_body (finditer TXN_RE txt) issues ;;
      issues <-
        match FUNC_RE with
        | Some func_re => for_each func_body (finditer func_re txt) issues
        | None => Ok issues
        end ;;
      issues <- for_each arch47_body (finditer ARCH47_RE txt) issues ;;
      issues <- for_each arch30_body (finditer ARCH30_RE txt) issues ;;
      issues <- for_each read_body (finditer READ_RE txt) issues ;;
      Ok issues
  end.

(* ------------------------------------------------------------------ *)
(** ** API *)

(** The unit as returned, with the list of suggestions attached under
    the key [mb_txn_usage]. *)
Record annotated := { unit_obj : Unit; mb_txn_usage : list hit }.

Definition or_empty (o : option string) : string :=
  match o with
  | Some "" | None => ""
  | Some s => s
  end.

Fixpoint remediate_mm_purchasing (units : list Unit)
  : result (list annotated) :=
  match units with
  | [] => Ok []
  | u :: units' =>
      let src := or_empty (code u) in
      issues <- find_mm_purchasing_issues (Some src) ;;
      let obj := {| unit_obj := u; mb_txn_usage := issues |} in
      results <- remediate_mm_purchasing units' ;;
      Ok (obj :: results)
  end.

(* ------------------------------------------------------------------ *)
(** ** What a match is: the declarative reading of a pattern *)

Module Sem.

(** The whole subject, recovered from a cursor. *)
Definition text (c : cursor) : list ascii := rev (bef c) ++ aft c.

(** [walk c w c']: [c'] is [c] moved forward over the word [w]. *)
Definition walk (c : cursor) (w : list ascii) (c' : cursor) : Prop :=
  aft c = w ++ aft c' /\ bef c' = rev w ++ bef c.

(** A move that closes no group. *)
Definition step (c : cursor) (w : list ascii) (c' : cursor) : Prop :=
  walk c w c' /\ marks c' = marks c.

(** A word equal to the literal [s] up to case. *)
Definition ci_eqs (s : string) (w : list ascii) : Prop :=
  Forall2 (fun x y => Char.ci_eq x y = true) (list_ascii_of_string s) w.

(** The words of a pattern, groups and assertions aside. *)
Fixpoint lang (r : re) (w : list ascii) : Prop :=
  match r with
  | Eps => w = []
  | Chr p => exists y, p y = true /\ w = [y]
  | LitI s => ci_eqs s w
  | Seq a b => exists u v, w = u ++ v /\ lang a u /\ lang b v
  | Alt a b => lang a w \/ lang b w
  | Opt a => lang a w \/ w = []
  | Star p => forallb p w = true
  | WordB => w = []
  | Grp _ a => lang a w
  end.

(** The moves of a pattern, with the groups it closes. *)
Fixpoint den (r : re) (c c' : cursor) : Prop :=
  match r with
  | Eps => c' = c
  | Chr p => exists y, p y = true /\ step c [y] c'
  | LitI s => exists w, ci_eqs s w /\ step c w c'
  | Seq a b => exists m, den a c m /\ den b m c'
  | Alt a b => den a c c' \/ den b c c'
  | Opt a => den a c c' \/ c' = c
  | Star p => exists w, forallb p w = true /\ step c w c'
  | WordB => boundary c = true /\ c' = c
  | Grp g a => exists m, den a c m /\ c' = set_mark g (pos c, pos m) m
  end.

(** A pattern without groups. *)
Fixpoint plain (r : re) : bool :=
  match r with
  | Seq a b | Alt a b => plain a && plain b
  | Opt a => plain a
  | Grp _ _ => false
  | _ => true
  end.

End Sem.
Import Sem.

(* ------------------------------------------------------------------ *)
(** ** The frame of the five patterns *)

(** Every pattern of the source is a group [full] around a keyword part
    (a group [stmt] in four of them), a gap, a group [name] and a tail. *)
Definition framed (stmt : bool) (kw gap nm tail : re) : re :=
  Grp "full"
    (Seq (if stmt then Grp "stmt" kw else kw)
    (Seq gap
    (Seq (Grp "name" nm) tail))).

(** The groups of a match of a framed pattern that starts at [p], by the
    lengths of its four parts. *)
Definition frame_marks (stmt : bool) (p lk lg ln lt : nat)
  : list (string * (nat * nat)) :=
  ("full", (p, p + (lk + lg + ln + lt)))
  :: ("name", (p + lk + lg, p + lk + lg + ln))
  :: (if stmt then [("stmt", (p, p + lk))] else []).

(** [m] is a match of the framed pattern in [txt]. *)
Definition framed_match (stmt : bool) (kw gap nm tail : re)
           (txt : string) (m : mtch) : Prop :=
  exists pre wk wg wn wt post,
    list_ascii_of_string txt = pre ++ (wk ++ wg ++ wn ++ wt) ++ post
    /\ lang kw wk /\ lang gap wg /\ lang nm wn /\ lang tail wt
    /\ m_string m = txt
    /\ m_marks m
       = frame_marks stmt (length pre)
                     (length wk) (length wg) (length wn) (length wt).

(** Spans that follow one another between [lo] and [hi]. *)
Fixpoint ordered (lo hi : nat) (l : list (nat * nat)) : Prop :=
  match l with
  | [] => True
  | (s, e) :: l' => lo <= s /\ s <= e /\ e <= hi /\ ordered e hi l'
  end.

Definition full_span (m : mtch) : nat * nat :=
  match span m "full" with
  | Some sp => sp
  | None => (0, 0)
  end.

(** The matches of [r] in the text [T], one after the other from [lo]. *)
Fixpoint trail (r : re) (txt : string) (T : list ascii) (lo : nat)
         (ms : list mtch) : Prop :=
  match ms with
  | [] => True
  | m :: ms' =>
      exists b0 a0 c',
        rev b0 ++ a0 = T /\ lo <= length b0
        /\ den r (Cursor b0 a0 []) c'
        /\ m = Match txt (marks c')
        /\ trail r txt T (pos c') ms'
  end.

(* ------------------------------------------------------------------ *)
(** ** The records of each pass *)

Definition hit_span (h : hit) : nat * nat :=
  (start_char_in_unit h, end_char_in_unit h).

(** The text under the span [sp] of [txt] is a call site: a keyword, a
    gap, an identifier and a tail, each a word of its part of the
    pattern, and [name] is the identifier in upper case. *)
Definition call_site (kw gap nm tail : re) (txt : string) (sp : nat * nat)
           (name : string) : Prop :=
  exists wk wg wn wt,
    list_ascii_of_string (slice txt (fst sp) (snd sp)) = wk ++ wg ++ wn ++ wt
    /\ lang kw wk /\ lang gap wg /\ lang nm wn /\ lang tail wt
    /\ name = str_upper (string_of_list_ascii wn).

(** The reserved fields of a record. *)
Definition reserved (h : hit) : Prop :=
  table h = "None" /\ used_fields h = [] /\ suggested_fields h = None.

(** The redirect text of the read-only reports. *)
Definition SARI_TEXT : string :=
  "Use transaction SARI for displaying archived MM Purchasing documents.".

(** What a record of each of the five loops looks like: its kind, the
    call site under its span, and how its fields come from the tables. *)
Definition txn_hit (txt : string) (h : hit) : Prop :=
  reserved h /\ target_type h = "Transaction"
  /\ exists wk wg wn wt repls,
       list_ascii_of_string
         (slice txt (start_char_in_unit h) (end_char_in_unit h))
       = wk ++ wg ++ wn ++ wt
       /\ lang txn_keyword wk /\ lang txn_gap wg
       /\ lang (names_re TXN_NAMES) wn /\ lang txn_tail wt
       /\ target_name h = str_upper (string_of_list_ascii wn)
       /\ dict_get TXN_MAP (target_name h) = Some repls /\ repls <> []
       /\ ambiguous h = (1 <? length repls)%nat
       /\ _mk_suggested_statement "txn" (target_name h) repls
            (string_of_list_ascii wk)
          = Ok (suggested_statement h).

Definition func_hit (names : list string) (txt : string) (h : hit) : Prop :=
  reserved h /\ target_type h = "FunctionModule"
  /\ call_site func_keyword func_gap (names_re names) func_tail
               txt (hit_span h) (target_name h)
  /\ exists info,
       (dict_get BAPI_MAP (target_name h) = Some info /\ ambiguous h = false
        \/ dict_get BAPI_MAP (target_name h) = None
           /\ dict_get IDOC_MAP (target_name h) = Some info
           /\ ambiguous h = (fm_new info =? target_name h))
       /\ suggested_statement h
          = ("CALL FUNCTION '" ++ fm_new info ++ "'.")%string
       /\ note h = truthy (fm_note info).

Definition arch47_hit (txt : string) (h : hit) : Prop :=
  reserved h /\ target_type h = "Report"
  /\ call_site submit_keyword ws1 (names_re ARCH47_NAMES) submit_tail
               txt (hit_span h) (target_name h)
  /\ exists info,
       dict_get ARCHIVE_REPORT_MAP (target_name h) = Some info
       /\ ambiguous h = false
       /\ suggested_statement h = ("SUBMIT " ++ rp_new info ++ ".")%string
       /\ note h = truthy (Some ("Archiving Object " ++ rp_obj info
                                 ++ ": use *70 reports (EhP4+).")%string).

Definition arch30_hit (txt : string) (h : hit) : Prop :=
  reserved h /\ target_type h = "Report"
  /\ call_site submit_keyword ws1 arch30_name submit_tail
               txt (hit_span h) (target_name h)
  /\ ambiguous h = true
  /\ suggested_statement h = "SUBMIT <corresponding RM06**70 report>."
  /\ note h = Some "Move to RM06**70 reports (EhP4+).".

Definition read_hit (txt : string) (h : hit) : Prop :=
  reserved h /\ target_type h = "Report"
  /\ call_site submit_keyword ws1 (names_re READ_REPORTS) submit_tail
               txt (hit_span h) (target_name h)
  /\ ambiguous h = true
  /\ suggested_statement h = SARI_TEXT
  /\ note h
     = Some "Read programs still usable; consider using Archive Information System (SARI).".

(** One loop, run on its own from the empty list. *)
Definition pass (body : list hit -> mtch -> result (list hit)) (r : re)
           (txt : string) : result (list hit) :=
  for_each body (finditer r txt) [].

(* ------------------------------------------------------------------ *)
(** ** The inputs of the properties *)

Definition sample_report_text : string := "SUBMIT RM06EV47.".

Definition sample_report_hit : hit :=
  {| table := "None"; target_type := "Report"; target_name := "RM06EV47";
     start_char_in_unit := 0; end_char_in_unit := 16; used_fields := [];
     ambiguous := false; suggested_statement := "SUBMIT RM06EV70.";
     suggested_fields := None;
     note := Some "Archiving Object MM_EKKO: use *70 reports (EhP4+)." |}.

(** [sub in s] *)
Definition contains (s sub : string) : bool :=
  match index 0 sub s with
  | Some _ => true
  | None => false
  end.

(** The two invocation keywords of a transaction call, and the minimal
    invocation of a code: keyword, one blank, the code (bare or in single
    quotes) and the terminator. *)
Definition TXN_KEYWORDS : list string := ["CALL TRANSACTION"; "SUBMIT"].

Definition minimal_invocation (kw q code : string) : string :=
  (kw ++ " " ++ q ++ code ++ q ++ ".")%string.

Definition sample_me24_text : string := "SUBMIT 'me24'.".

Definition sample_me24_hit : hit :=
  {| table := "None"; target_type := "Transaction"; target_name := "ME24";
     start_char_in_unit := 0; end_char_in_unit := 14; used_fields := [];
     ambiguous := true;
     suggested_statement := "SUBMIT ME21N. or SUBMIT ME22N.";
     suggested_fields := None; note := None |}.

Definition PORDCH : string := "IDOC_INPUT_PORDCH".

Definition pordch_hit (sp : nat * nat) : hit :=
  {| table := "None"; target_type := "FunctionModule"; target_name := PORDCH;
     start_char_in_unit := fst sp; end_char_in_unit := snd sp;
     used_fields := []; ambiguous := true;
     suggested_statement := "CALL FUNCTION 'IDOC_INPUT_PORDCH'.";
     suggested_fields := None;
     note := Some "Ensure BUS2012 version is used." |}.

Definition sample_pordch_text : string := "CALL FUNCTION 'IDOC_INPUT_PORDCH'.".

Definition read_report_hit (name : string) (sp : nat * nat) : hit :=
  {| table := "None"; target_type := "Report"; target_name := name;
     start_char_in_unit := fst sp; end_char_in_unit := snd sp;
     used_fields := []; ambiguous := true;
     suggested_statement := SARI_TEXT;
     suggested_fields := None;
     note := Some "Read programs still usable; consider using Archive Information System (SARI)." |}.

(* ------------------------------------------------------------------ *)
(** ** Characters and the order of alternatives *)

Definition all_ascii : list ascii := map ascii_of_nat (seq 0 256).

Definition is_ascii (c : ascii) : bool := (Char.code c <? 128)%N.

(** [FUNC_NAMES] and [READ_REPORTS] come from sets, whose order of
    iteration is not fixed.  No name of these tables is a prefix of
    another one, so at most one alternative matches at a position, and
    any order of the names yields the same matches. *)
Definition hits (n : string) (c : cursor) : bool :=
  match lit_i n c with
  | Some _ => true
  | None => false
  end.

Definition exclusive (ns : list string) : Prop :=
  forall c n1 n2,
    In n1 ns -> In n2 ns -> hits n1 c = true -> hits n2 c = true -> n1 = n2.

(** [s] is, up to case, a prefix of [t]. *)
Fixpoint ci_prefix (s t : string) : bool :=
  match s, t with
  | EmptyString, _ => true
  | String x s', String y t' =>
      Ascii.eqb (Char.lower x) (Char.lower y) && ci_prefix s' t'
  | String _ _, EmptyString => false
  end.

Definition prefix_free (ns : list string) : bool :=
  forallb (fun n1 =>
    forallb (fun n2 => String.eqb n1 n2 || negb (ci_prefix n1 n2)) ns) ns.

(** Two patterns that the matcher cannot tell apart. *)
Definition bt_equiv (r r' : re) : Prop :=
  forall A (k : cursor -> option A) c, bt r k c = bt r' k c.

Definition PORDCH_CALL : string := "CALL FUNCTION 'IDOC_INPUT_PORDCH'".

(** After a word character, [\b] holds before the end of the text and
    before a character that is no word character. *)
Definition breaks (rest : list ascii) : bool :=
  negb (word_at (hd_error rest)).

Lemma list_of_append (s t : string) :
  list_ascii_of_string (s ++ t)%string
  = list_ascii_of_string s ++ list_ascii_of_string t.
Proof. induction s as [|c s IH]; simpl; [reflexivity | now rewrite IH]. Qed.

Lemma list_of_substring (s : string) : forall n m,
  list_ascii_of_string (substring n m s)
  = firstn m (skipn n (list_ascii_of_string s)).
Proof.
  induction s as [|c s IH]; intros n m.
  - destruct n, m; reflexivity.
  - destruct n as [|n].
    + destruct m as [|m]; simpl; [reflexivity|].
      f_equal. rewrite IH. reflexivity.
    + simpl. apply IH.
Qed.

Lemma length_list_of (s : string) :
  length (list_ascii_of_string s) = len s.
Proof. induction s; simpl; [reflexivity | now f_equal]. Qed.

(** The slice between two lengths of a decomposed text. *)
Lemma slice_middle (t : string) (pre w post : list ascii) :
  list_ascii_of_string t = pre ++ w ++ post ->
  list_ascii_of_string (slice t (length pre) (length pre + length w)) = w.
Proof.
  intros H. unfold slice. rewrite list_of_substring, H.
  replace (length pre + length w - length pre) with (length w) by lia.
  rewrite skipn_app, skipn_all, Nat.sub_diag. simpl.
  rewrite firstn_app, firstn_all, Nat.sub_diag. simpl.
  apply app_nil_r.
Qed.

Lemma slice_middle_string (t : string) (pre w post : list ascii) :
  list_ascii_of_string t = pre ++ w ++ post ->
  slice t (length pre) (length pre + length w) = string_of_list_ascii w.
Proof.
  intros H.
  rewrite <- (string_of_list_ascii_of_string (slice t _ _)).
  f_equal. now apply slice_middle with (post := post).
Qed.

(* ------------------------------------------------------------------ *)
(** ** Further vocabulary: table entries, records and call sites *)

(** A pattern character that stands for itself in upper case. *)
Definition canonical_char (x : ascii) : bool :=
  is_ascii x && Ascii.eqb (Char.upper x) x.

Definition canonical (s : string) : bool :=
  forallb canonical_char (list_ascii_of_string s).

(** The note of a transaction record, by its code. *)
Definition txn_note (name : string) : option string :=
  if name =? "ME27" then Some "PO without material: create via ME21N."
  else if name =? "ME25"
       then Some "ME25 functions available via ME21N (use Hold / Enjoy features)."
       else None.

(** What the loops make of one match: the record [h] appended for [m]. *)
Definition txn_rec (txt : string) (m : mtch) (h : hit) : Prop :=
  hit_span h = full_span m /\ txn_hit txt h
  /\ note h = txn_note (target_name h).

Definition func_rec (txt : string) (m : mtch) (h : hit) : Prop :=
  hit_span h = full_span m /\ func_hit FUNC_NAMES txt h.

Definition arch47_rec (txt : string) (m : mtch) (h : hit) : Prop :=
  hit_span h = full_span m /\ arch47_hit txt h.

Definition arch30_rec (txt : string) (m : mtch) (h : hit) : Prop :=
  hit_span h = full_span m /\ arch30_hit txt h.

Definition read_rec (txt : string) (m : mtch) (h : hit) : Prop :=
  hit_span h = full_span m /\ read_hit txt h.

(** A name of the generic 30 family: a prefix of the table, upper-case
    letters, and the suffix 30. *)
Definition family30 (name : string) : Prop :=
  exists p mid,
    In p ARCHIVE_30_PREFIXES
    /\ forallb (Char.in_range 65 90) (list_ascii_of_string mid) = true
    /\ name = (p ++ mid ++ "30")%string.




Definition sample_me27_text : string := "call transaction ME27.".

Definition sample_me27_hit : hit :=
  {| table := "None"; target_type := "Transaction"; target_name := "ME27";
     start_char_in_unit := 0; end_char_in_unit := 22; used_fields := [];
     ambiguous := false;
     suggested_statement := "CALL TRANSACTION 'ME21N'.";
     suggested_fields := None;
     note := Some "PO without material: create via ME21N." |}.

Definition sample_unterminated_text : string :=
  "CALL FUNCTION 'BAPI_PO_CREATE' EXPORTING x = y SUBMIT RM06EV47 CALL TRANSACTION ME21".

Definition sample_unterminated_hit : hit :=
  {| table := "None"; target_type := "Transaction"; target_name := "ME21";
     start_char_in_unit := 63; end_char_in_unit := 84; used_fields := [];
     ambiguous := false;
     suggested_statement := "CALL TRANSACTION 'ME21N'.";
     suggested_fields := None; note := None |}.

(** The table entry of a function module: the BAPI table first, then the
    IDoc table, as the loop looks them up. *)
Definition fm_lookup (name : string) : option fm_info :=
  match dict_get BAPI_MAP name with
  | Some info => Some info
  | None => dict_get IDOC_MAP name
  end.

(** The record of a function module with the table entry [info]. *)
Definition fm_record (name : string) (info : fm_info) (sp : nat * nat) : hit :=
  {| table := "None"; target_type := "FunctionModule"; target_name := name;
     start_char_in_unit := fst sp; end_char_in_unit := snd sp;
     used_fields := [];
     ambiguous := negb (dict_mem name BAPI_MAP) && (fm_new info =? name);
     suggested_statement := ("CALL FUNCTION '" ++ fm_new info ++ "'.")%string;
     suggested_fields := None;
     note := truthy (fm_note info) |}.

(** The record of an archived report with the table entry [info]. *)
Definition report_record (name : string) (info : report_info)
           (sp : nat * nat) : hit :=
  {| table := "None"; target_type := "Report"; target_name := name;
     start_char_in_unit := fst sp; end_char_in_unit := snd sp;
     used_fields := []; ambiguous := false;
     suggested_statement := ("SUBMIT " ++ rp_new info ++ ".")%string;
     suggested_fields := None;
     note := Some ("Archiving Object " ++ rp_obj info
                   ++ ": use *70 reports (EhP4+).")%string |}.

Definition FUNC_CALL : string := "CALL FUNCTION '".

Definition sample_two_calls_text : string :=
  "CALL FUNCTION 'IDOC_INPUT_PREQCR' TABLES t = t. SUBMIT RM06IR30.".

(** Drop the white space at the head of a text. *)
Fixpoint skip_ws (l : list ascii) : list ascii :=
  match l with
  | y :: l' => if Char.is_space y then skip_ws l' else l
  | [] => []
  end.

(** How a call site opens: its first character is of the class [a], and
    the first character after the [n] characters of the keyword and the
    white space that follows them is of the class [b]. *)
Definition opens (a b : ascii -> bool) (n : nat) (T : list ascii) : Prop :=
  exists y x,
    hd_error T = Some y /\ a y = true
    /\ hd_error (skip_ws (skipn n T)) = Some x /\ b x = true.

(** No character is of both classes. *)
Definition disjoint_chars (p q : ascii -> bool) : bool :=
  forallb (fun y => negb (p y && q y)) all_ascii.

Definition quote_or_m (x : ascii) : bool :=
  Char.is_quote x || Char.ci_eq "M" x.

(** Every name of the list starts with the character [a]. *)
Definition all_start_with (a : ascii) (ns : list string) : bool :=
  forallb (fun n => match n with
                    | String c _ => Ascii.eqb c a
                    | EmptyString => false
                    end) ns.

Definition sample_read_text : string := "SUBMIT RM06ER30.".

Definition sample_generic_hit : hit :=
  {| table := "None"; target_type := "Report"; target_name := "RM06ER30";
     start_char_in_unit := 0; end_char_in_unit := 16; used_fields := [];
     ambiguous := true;
     suggested_statement := "SUBMIT <corresponding RM06**70 report>.";
     suggested_fields := None;
     note := Some "Move to RM06**70 reports (EhP4+)." |}.

(* ------------------------------------------------------------------ *)
(** ** Strings and lists of characters *)

(** Split a conjunction into its parts, and no further. *)
Ltac splits := repeat match goal with |- _ /\ _ => split end.

(* ------------------------------------------------------------------ *)
(** ** Moves *)

Lemma walk_refl c : walk c [] c.
Proof. split; reflexivity. Qed.

Lemma walk_trans c w m v c' :
  walk c w m -> walk m v c' -> walk c (w ++ v) c'.
Proof.
  intros [H1 H2] [H3 H4]. split.
  - now rewrite H1, H3, app_assoc.
  - now rewrite H4, H2, rev_app_distr, app_assoc.
Qed.

Lemma walk_text c w c' : walk c w c' -> text c' = text c.
Proof.
  intros [H1 H2]. unfold text.
  now rewrite H1, H2, rev_app_distr, rev_involutive, <- app_assoc.
Qed.

Lemma walk_pos c w c' : walk c w c' -> pos c' = pos c + length w.
Proof.
  intros [_ H]. unfold pos.
  rewrite H, length_app, length_rev. lia.
Qed.

Lemma walk_split c w c' :
  walk c w c' -> text c = rev (bef c) ++ w ++ aft c'.
Proof. intros [H _]. unfold text. now rewrite H. Qed.

Lemma step_refl c : step c [] c.
Proof. split; [apply walk_refl | reflexivity]. Qed.

Lemma step_trans c w m v c' :
  step c w m -> step m v c' -> step c (w ++ v) c'.
Proof.
  intros [H1 H2] [H3 H4].
  split; [eapply walk_trans; eauto | congruence].
Qed.

(* ------------------------------------------------------------------ *)
(** ** The matcher finds only what the pattern denotes *)

Lemma lit_i_sound s : forall c c',
  lit_i s c = Some c' -> exists w, ci_eqs s w /\ step c w c'.
Proof.
  induction s as [|x s IH]; simpl; intros c c' H.
  - inversion H; subst. exists []. split; [constructor | apply step_refl].
  - destruct (aft c) as [|y a'] eqn:Ha; [discriminate|].
    destruct (Char.ci_eq x y) eqn:Hxy; [|discriminate].
    apply IH in H. destruct H as (w & Hw & [[H1 H2] H3]). simpl in *.
    exists (y :: w). split; [now constructor|].
    repeat split; simpl.
    + now rewrite Ha, H1.
    + now rewrite H2, <- app_assoc.
    + assumption.
Qed.

Lemma star_sound A p (k : cursor -> option A) : forall a b mk x,
  star p k b a mk = Some x ->
  exists w a', a = w ++ a' /\ forallb p w = true
               /\ k (Cursor (rev w ++ b) a' mk) = Some x.
Proof.
  induction a as [|y a IH]; simpl; intros b mk x H.
  - exists [], []. auto.
  - destruct (p y) eqn:Hp.
    + destruct (star p k (y :: b) a mk) eqn:Hs.
      * inversion H; subst.
        apply IH in Hs. destruct Hs as (w & a' & -> & Hw & Hk).
        exists (y :: w), a'. simpl. rewrite Hp, Hw.
        repeat split. now rewrite <- app_assoc.
      * exists [], (y :: a). auto.
    + exists [], (y :: a). auto.
Qed.

Theorem bt_sound A r : forall (k : cursor -> option A) c x,
  bt r k c = Some x -> exists c', den r c c' /\ k c' = Some x.
Proof.
  induction r as [ | p | s | a IHa b IHb | a IHa b IHb | a IHa | p | | g a IHa];
    simpl; intros k c x H.
  - eauto.
  - destruct (aft c) as [|y a'] eqn:Ha; [discriminate|].
    destruct (p y) eqn:Hp; [|discriminate].
    eexists. split; [|exact H]. exists y. split; [assumption|].
    repeat split; simpl; auto.
  - destruct (lit_i s c) as [c1|] eqn:Hl; [|discriminate].
    apply lit_i_sound in Hl. eauto.
  - apply IHa in H. destruct H as (m & Hm & H).
    apply IHb in H. destruct H as (c' & Hc' & H). eauto.
  - destruct (bt a k c) eqn:Ha.
    + inversion H; subst. apply IHa in Ha. destruct Ha as (c' & ? & ?). eauto.
    + apply IHb in H. destruct H as (c' & ? & ?). eauto.
  - destruct (bt a k c) eqn:Ha.
    + inversion H; subst. apply IHa in Ha. destruct Ha as (c' & ? & ?). eauto.
    + eauto.
  - apply star_sound in H. destruct H as (w & a' & Ha & Hw & Hk).
    eexists. split; [|exact Hk]. exists w. split; [assumption|].
    repeat split; simpl; auto.
  - destruct (boundary c) eqn:Hb; [|discriminate]. eauto.
  - apply IHa in H. destruct H as (m & Hm & H). eauto.
Qed.

Lemma den_lang r : forall c c',
  den r c c' -> exists w, walk c w c' /\ lang r w.
Proof.
  induction r as [ | p | s | a IHa b IHb | a IHa b IHb | a IHa | p | | g a IHa];
    simpl; intros c c' H.
  - subst. exists []. split; [apply walk_refl | reflexivity].
  - destruct H as (y & Hp & [Hw _]). exists [y]. eauto.
  - destruct H as (w & Hs & [Hw _]). eauto.
  - destruct H as (m & H1 & H2).
    apply IHa in H1. destruct H1 as (u & Hu & Lu).
    apply IHb in H2. destruct H2 as (v & Hv & Lv).
    exists (u ++ v). split; [eapply walk_trans; eauto|].
    exists u, v. auto.
  - destruct H as [H|H]; [apply IHa in H | apply IHb in H];
      destruct H as (w & ? & ?); eauto.
  - destruct H as [H|H].
    + apply IHa in H. destruct H as (w & ? & ?). eauto.
    + subst. exists []. split; [apply walk_refl | auto].
  - destruct H as (w & Hp & [Hw _]). eauto.
  - destruct H as [_ ->]. exists []. split; [apply walk_refl | reflexivity].
  - destruct H as (m & H & ->). apply IHa in H. destruct H as (w & Hw & L).
    exists w. split; [exact Hw | exact L].
Qed.

Lemma den_plain r : plain r = true -> forall c c',
  den r c c' -> marks c' = marks c.
Proof.
  induction r as [ | p | s | a IHa b IHb | a IHa b IHb | a IHa | p | | g a IHa];
    simpl; intros P c c' H; try discriminate.
  - now subst.
  - destruct H as (y & _ & [_ H]). exact H.
  - destruct H as (w & _ & [_ H]). exact H.
  - apply andb_true_iff in P. destruct P as [Pa Pb].
    destruct H as (m & H1 & H2).
    rewrite (IHb Pb _ _ H2). now apply IHa.
  - apply andb_true_iff in P. destruct P as [Pa Pb].
    destruct H as [H|H]; auto.
  - destruct H as [H|H]; [auto | now subst].
  - destruct H as (w & _ & [_ H]). exact H.
  - destruct H as [_ ->]. reflexivity.
Qed.

(** A pattern without groups moves the cursor over one of its words and
    closes no group. *)
Lemma den_plain_step r c c' :
  plain r = true -> den r c c' -> exists w, step c w c' /\ lang r w.
Proof.
  intros P H. destruct (den_lang _ _ _ H) as (w & Hw & L).
  exists w. split; [split; [exact Hw | eapply den_plain; eauto] | exact L].
Qed.

(* ------------------------------------------------------------------ *)
(** ** The frame of the five patterns *)

Lemma den_framed stmt kw gap nm tail c c' :
  plain kw = true -> plain gap = true -> plain nm = true ->
  plain tail = true -> marks c = [] ->
  den (framed stmt kw gap nm tail) c c' ->
  exists wk wg wn wt,
    lang kw wk /\ lang gap wg /\ lang nm wn /\ lang tail wt
    /\ walk c (wk ++ wg ++ wn ++ wt) c'
    /\ marks c'
       = frame_marks stmt (pos c)
                     (length wk) (length wg) (length wn) (length wt).
Proof.
  intros Pk Pg Pn Pt Mc H. unfold framed in H.
  destruct H as (m4 & (m1 & H1 & m2 & H2 & m3 & (m3' & H3 & ->) & H4) & ->).
  assert (Hk : exists m0 wk, step c wk m0 /\ lang kw wk
                 /\ bef m1 = bef m0 /\ aft m1 = aft m0
                 /\ marks m1
                    = (if stmt then [("stmt", (pos c, pos m0))] else [])).
  { destruct stmt.
    - destruct H1 as (m0 & H1 & ->).
      destruct (@den_plain_step _ _ _ Pk H1) as (wk & S & L).
      exists m0, wk. split; [exact S|]. split; [exact L|].
      simpl. rewrite (proj2 S), Mc. auto.
    - destruct (@den_plain_step _ _ _ Pk H1) as (wk & S & L).
      exists m1, wk. split; [exact S|]. split; [exact L|].
      rewrite (proj2 S), Mc. auto. }
  destruct Hk as (m0 & wk & [Wk _] & Lk & Eb & Ea & Em).
  destruct (@den_plain_step _ _ _ Pg H2) as (wg & [Wg Mg] & Lg).
  destruct (@den_plain_step _ _ _ Pn H3) as (wn & [Wn Mn] & Ln).
  destruct (@den_plain_step _ _ _ Pt H4) as (wt & [Wt Mt] & Lt).
  assert (Wg' : walk m0 wg m2).
  { destruct Wg as [A B]. split; congruence. }
  assert (Wt' : walk m3' wt m4).
  { destruct Wt as [A B]. split; simpl in *; congruence. }
  exists wk, wg, wn, wt.
  split; [exact Lk|]. split; [exact Lg|]. split; [exact Ln|].
  split; [exact Lt|]. split.
  - eapply walk_trans; [exact Wk|].
    eapply walk_trans; [exact Wg'|].
    eapply walk_trans; [exact Wn | exact Wt'].
  - unfold frame_marks, set_mark. simpl.
    rewrite Mt. simpl. rewrite Mn, Mg, Em.
    pose proof (walk_pos Wk) as Ek. pose proof (walk_pos Wg') as Eg.
    pose proof (walk_pos Wn) as En. pose proof (walk_pos Wt') as Et.
    assert (E2 : pos m2 = pos c + length wk + length wg) by lia.
    assert (E3 : pos m3' = pos c + length wk + length wg + length wn) by lia.
    assert (E4 : pos m4 = pos c + (length wk + length wg + length wn
                                   + length wt)) by lia.
    unfold pos in *. simpl. rewrite E2, E3, E4, Ek.
    destruct stmt; reflexivity.
Qed.

(* ------------------------------------------------------------------ *)
(** ** [search] and [finditer] *)

Lemma accept_some ma st c x :
  accept ma st c = Some x -> x = c /\ (ma = true -> pos c <> st).
Proof.
  unfold accept. destruct ma; cbn [andb].
  - destruct (Nat.eqb_spec (pos c) st) as [|N]; [discriminate|].
    intros H; inversion H; subst. split; [reflexivity | intros _; exact N].
  - intros H; inversion H. split; [reflexivity | discriminate].
Qed.

Lemma search_sound r : forall a b ma start c',
  search r ma b a = Some (start, c') ->
  exists b0 a0,
    rev b0 ++ a0 = rev b ++ a /\ start = length b0
    /\ length b <= length b0 /\ length a0 <= length a
    /\ den r (Cursor b0 a0 []) c'
    /\ (ma = true -> pos c' = start -> length b < start).
Proof.
  induction a as [|y a IH]; intros b ma start c' H; simpl in H.
  - destruct (bt r (accept ma (length b)) (Cursor b [] [])) eqn:Hb;
      [|discriminate].
    inversion H; subst.
    apply bt_sound in Hb. destruct Hb as (c1 & D & Acc).
    apply accept_some in Acc. destruct Acc as [-> Adv].
    exists b, []. splits; auto. intros Hm Hp. now apply Adv in Hm.
  - destruct (bt r (accept ma (length b)) (Cursor b (y :: a) [])) eqn:Hb.
    + inversion H; subst.
      apply bt_sound in Hb. destruct Hb as (c1 & D & Acc).
      apply accept_some in Acc. destruct Acc as [-> Adv].
      exists b, (y :: a). splits; auto.
      intros Hm Hp. now apply Adv in Hm.
    + apply IH in H. destruct H as (b0 & a0 & E & St & Lb & La & D & _).
      exists b0, a0. simpl in *. rewrite <- app_assoc in E. simpl in E.
      splits; auto; lia.
Qed.

Lemma den_text r c c' : den r c c' -> text c' = text c.
Proof.
  intros H. destruct (den_lang _ _ _ H) as (w & W & _).
  eapply walk_text; eauto.
Qed.

Lemma finditer_trail r txt T : forall fuel ma b a,
  rev b ++ a = T ->
  trail r txt T (length b) (finditer_from fuel r txt ma b a).
Proof.
  induction fuel as [|fuel IH]; intros ma b a E; simpl; [exact I|].
  destruct (search r ma b a) as [[start c']|] eqn:Hs; [|exact I].
  apply search_sound in Hs.
  destruct Hs as (b0 & a0 & E0 & -> & Lb & _ & D & _).
  simpl. exists b0, a0, c'.
  splits; auto; [congruence|].
  apply IH. pose proof (den_text _ _ _ D) as Ht.
  unfold text in Ht. simpl in Ht. congruence.
Qed.

(** The fuel of [finditer] is enough: any larger amount yields the same
    matches. *)
Lemma finditer_fuel_enough r txt : forall fuel1 fuel2 (ma : bool) b a,
  2 * length a + (if ma then 0 else 1) < fuel1 ->
  2 * length a + (if ma then 0 else 1) < fuel2 ->
  finditer_from fuel1 r txt ma b a = finditer_from fuel2 r txt ma b a.
Proof.
  induction fuel1 as [|fuel1 IH]; intros fuel2 ma b a H1 H2; [lia|].
  destruct fuel2 as [|fuel2]; [lia|]. simpl.
  destruct (search r ma b a) as [[start c']|] eqn:Hs; [|reflexivity].
  f_equal.
  apply search_sound in Hs.
  destruct Hs as (b0 & a0 & E0 & -> & Lb & La & D & Adv).
  destruct (den_lang _ _ _ D) as (w & W & _).
  pose proof (walk_pos W) as Hp.
  destruct W as [Wa _]. simpl in Wa.
  assert (Hl : length a0 = length w + length (aft c'))
    by (rewrite Wa, length_app; lia).
  assert (Hb : length b + length a = length b0 + length a0).
  { apply (f_equal (@length ascii)) in E0.
    rewrite !length_app, !length_rev in E0. lia. }
  unfold pos in Hp. simpl in Hp.
  apply IH; destruct (Nat.eqb_spec (pos c') (length b0)) as [Q|Q];
    unfold pos in Q; destruct ma; try lia;
    specialize (Adv eq_refl Q); lia.
Qed.

Lemma ordered_weaken lo lo' hi l :
  lo' <= lo -> ordered lo hi l -> ordered lo' hi l.
Proof. destruct l as [|[s e] l]; simpl; intuition lia. Qed.

(** The matches of a framed pattern: each one decomposes the text, and
    their spans follow one another. *)
Lemma trail_framed stmt kw gap nm tail txt :
  plain kw = true -> plain gap = true -> plain nm = true ->
  plain tail = true ->
  forall ms lo,
    trail (framed stmt kw gap nm tail) txt (list_ascii_of_string txt) lo ms ->
    Forall (framed_match stmt kw gap nm tail txt) ms
    /\ ordered lo (len txt) (map full_span ms).
Proof.
  intros Pk Pg Pn Pt.
  induction ms as [|m ms IH]; intros lo H; simpl in *.
  - split; [constructor | exact I].
  - destruct H as (b0 & a0 & c' & E & Lo & D & -> & Tr).
    apply den_framed in D; auto.
    destruct D as (wk & wg & wn & wt & Lk & Lg & Ln & Lt & W & M).
    apply IH in Tr. destruct Tr as [F O].
    pose proof (walk_pos W) as Hp. pose proof (walk_split W) as Hs.
    unfold text, pos in *. simpl in *. rewrite E in Hs.
    assert (Hlen : length b0 + length (wk ++ wg ++ wn ++ wt)
                   + length (aft c') = len txt).
    { rewrite <- length_list_of, Hs, !length_app, length_rev. lia. }
    rewrite !length_app in *.
    split.
    + constructor; [|exact F].
      exists (rev b0), wk, wg, wn, wt, (aft c').
      rewrite length_rev. splits; auto.
    + unfold full_span at 1, span. simpl. rewrite M. simpl.
      splits; try lia.
      eapply ordered_weaken; [|exact O]. lia.
Qed.

Lemma finditer_framed stmt kw gap nm tail txt :
  plain kw = true -> plain gap = true -> plain nm = true ->
  plain tail = true ->
  let ms := finditer (framed stmt kw gap nm tail) txt in
  Forall (framed_match stmt kw gap nm tail txt) ms
  /\ ordered 0 (len txt) (map full_span ms).
Proof.
  intros Pk Pg Pn Pt ms.
  apply trail_framed; auto.
  unfold ms, finditer. apply (@finditer_trail _ txt _ _ false [] _).
  reflexivity.
Qed.

Lemma finditer_any_fuel r txt fuel :
  2 * len txt + 2 <= fuel ->
  finditer r txt
  = finditer_from fuel r txt false [] (list_ascii_of_string txt).
Proof.
  intros H. unfold finditer.
  apply finditer_fuel_enough; rewrite length_list_of; lia.
Qed.

(* ------------------------------------------------------------------ *)
(** ** What the loops see of a match *)

Lemma slice_at (t : string) (pre w post : list ascii) p q :
  list_ascii_of_string t = pre ++ w ++ post ->
  p = length pre -> q = p + length w ->
  slice t p q = string_of_list_ascii w.
Proof. intros H -> ->. eapply slice_middle_string; eauto. Qed.

Lemma framed_match_groups stmt kw gap nm tail txt m :
  framed_match stmt kw gap nm tail txt m ->
  exists wk wg wn wt sp,
    span m "full" = Some sp
    /\ list_ascii_of_string (slice txt (fst sp) (snd sp))
       = wk ++ wg ++ wn ++ wt
    /\ lang kw wk /\ lang gap wg /\ lang nm wn /\ lang tail wt
    /\ group m "name" = Some (string_of_list_ascii wn)
    /\ (stmt = true -> group m "stmt" = Some (string_of_list_ascii wk)).
Proof.
  intros (pre & wk & wg & wn & wt & post & E & Lk & Lg & Ln & Lt & Es & Em).
  exists wk, wg, wn, wt. eexists.
  unfold group, span. rewrite Em, Es. unfold frame_marks.
  cbn [lookup String.eqb Ascii.eqb Bool.eqb fst snd].
  splits; auto.
  - cbn [fst snd].
    rewrite (slice_at txt pre (wk ++ wg ++ wn ++ wt) post E eq_refl).
    + apply list_ascii_of_string_of_list_ascii.
    + rewrite !length_app. lia.
  - f_equal. apply slice_at with (pre := pre ++ wk ++ wg) (post := wt ++ post).
    + rewrite E. now rewrite <- !app_assoc.
    + rewrite !length_app. lia.
    + reflexivity.
  - intros ->. cbn [lookup String.eqb Ascii.eqb Bool.eqb].
    f_equal. apply slice_at with (pre := pre) (post := wg ++ wn ++ wt ++ post).
    + rewrite E. now rewrite <- !app_assoc.
    + reflexivity.
    + reflexivity.
Qed.

Lemma full_span_some m sp : span m "full" = Some sp -> full_span m = sp.
Proof. unfold full_span. now intros ->. Qed.

(** A loop whose body appends at most one record per match, at the span
    of the match: the records found, in the order of the matches,
    whatever the list they are appended to. *)
Lemma for_each_hits (good : mtch -> Prop) (Q : hit -> Prop)
      (body : list hit -> mtch -> result (list hit)) :
  (forall m, good m ->
     exists hs, (forall issues, body issues m = Ok (issues ++ hs))
                /\ length hs <= 1
                /\ Forall (fun h => Q h /\ hit_span h = full_span m) hs) ->
  forall ms lo hi,
    Forall good ms -> ordered lo hi (map full_span ms) ->
    exists hs, (forall issues, for_each body ms issues = Ok (issues ++ hs))
               /\ Forall Q hs /\ ordered lo hi (map hit_span hs).
Proof.
  intros B. induction ms as [|m ms IH]; intros lo hi G O.
  - exists []. simpl. split; [intros; now rewrite app_nil_r | auto].
  - inversion G as [|? ? Gm Gms]; subst. simpl in O.
    destruct (full_span m) as [s e] eqn:Sp.
    destruct O as (O1 & O2 & O3 & O).
    destruct (B m Gm) as (hm & Eb & Lh & Fh).
    destruct (IH e hi Gms O) as (hs & Eh & Fq & Oh).
    exists (hm ++ hs). split; [|split].
    + intros issues. simpl. rewrite Eb. simpl. rewrite Eh.
      now rewrite <- app_assoc.
    + apply Forall_app. split; [|exact Fq].
      eapply Forall_impl; [|exact Fh]. now intros h [? _].
    + destruct hm as [|h [|h' hm]]; simpl in *; try lia.
      * eapply ordered_weaken; [|exact Oh]. lia.
      * inversion Fh as [|? ? [_ Eq] _]; subst.
        unfold hit_span in Eq. rewrite Sp in Eq. inversion Eq; subst.
        auto.
Qed.

(* ------------------------------------------------------------------ *)
(** ** The suggestion builder *)

Lemma mk_txn_ok name news stmt :
  exists s, _mk_suggested_statement "txn" name news stmt = Ok s.
Proof.
  unfold _mk_suggested_statement. cbn [String.eqb Ascii.eqb Bool.eqb].
  destruct news as [|n [|n' news]]; simpl;
    destruct (startswith (str_upper stmt) "SUBMIT"); eauto.
Qed.

Lemma mk_func name new stmt :
  _mk_suggested_statement "func" name [new] stmt
  = Ok ("CALL FUNCTION '" ++ new ++ "'.")%string.
Proof. reflexivity. Qed.

Lemma mk_report name new stmt :
  _mk_suggested_statement "report" name [new] stmt
  = Ok ("SUBMIT " ++ new ++ ".")%string.
Proof. reflexivity. Qed.

(* ------------------------------------------------------------------ *)
(** ** The records of each pass *)

Ltac use_groups H :=
  apply framed_match_groups in H;
  destruct H as (wk & wg & wn & wt & sp & Sp & Sl & Lk & Lg & Ln & Lt & Gn & Gs).

Ltac open_body :=
  intros issues;
  unfold txn_body, func_body, arch47_body, arch30_body, read_body,
    group_of, span_of, dict_mem;
  repeat match goal with
         | E : group _ _ = Some _ |- _ => rewrite E; clear E
         | E : span _ _ = Some _ |- _ => rewrite E
         end;
  cbn [expect bind].

Ltac no_hit := exists []; split; [open_body | simpl; auto].

Ltac one_hit fin Sp sp :=
  eexists [_]; split; [open_body; fin | split; [simpl; lia |
    constructor; [split; [| unfold hit_span; simpl;
                            rewrite (full_span_some _ Sp); now destruct sp]
                 | constructor]]].

Lemma txn_body_spec txt m :
  framed_match true txn_keyword txn_gap (names_re TXN_NAMES) txn_tail txt m ->
  exists hs, (forall issues, txn_body issues m = Ok (issues ++ hs))
             /\ length hs <= 1
             /\ Forall (fun h => txn_hit txt h /\ hit_span h = full_span m) hs.
Proof.
  intros H. use_groups H. specialize (Gs eq_refl).
  destruct (dict_get TXN_MAP (str_upper (string_of_list_ascii wn)))
    as [[|r repls]|] eqn:D.
  - no_hit. rewrite D. now rewrite app_nil_r.
  - destruct (mk_txn_ok (str_upper (string_of_list_ascii wn)) (r :: repls)
                        (string_of_list_ascii wk)) as (s & Hs).
    one_hit ltac:(rewrite D, Hs; reflexivity) Sp sp.
    split; [repeat split|]. split; [reflexivity|].
    exists wk, wg, wn, wt, (r :: repls). cbn [start_char_in_unit
        end_char_in_unit target_name ambiguous suggested_statement].
      splits; auto. discriminate.
  - no_hit. rewrite D. now rewrite app_nil_r.
Qed.

Lemma func_body_spec names txt m :
  framed_match false func_keyword func_gap (names_re names) func_tail txt m ->
  exists hs, (forall issues, func_body issues m = Ok (issues ++ hs))
             /\ length hs <= 1
             /\ Forall (fun h => func_hit names txt h
                                 /\ hit_span h = full_span m) hs.
Proof.
  intros H. use_groups H. clear Gs.
  destruct (dict_get BAPI_MAP (str_upper (string_of_list_ascii wn)))
    as [info|] eqn:DB.
  - one_hit ltac:(rewrite DB; cbn [expect bind]; rewrite mk_func;
                    reflexivity) Sp sp.
    split; [repeat split|]. split; [reflexivity|]. split.
    + exists wk, wg, wn, wt. splits; auto.
    + exists info. cbn. splits; auto.
  - destruct (dict_get IDOC_MAP (str_upper (string_of_list_ascii wn)))
      as [info|] eqn:DI.
    + one_hit ltac:(rewrite DB, DI; cbn [expect bind]; rewrite mk_func;
                      reflexivity) Sp sp.
      split; [repeat split|]. split; [reflexivity|]. split.
      * exists wk, wg, wn, wt. splits; auto.
      * exists info. cbn. splits; auto.
    + no_hit. rewrite DB, DI. now rewrite app_nil_r.
Qed.

Lemma arch47_body_spec txt m :
  framed_match true submit_keyword ws1 (names_re ARCH47_NAMES) submit_tail
               txt m ->
  exists hs, (forall issues, arch47_body issues m = Ok (issues ++ hs))
             /\ length hs <= 1
             /\ Forall (fun h => arch47_hit txt h
                                 /\ hit_span h = full_span m) hs.
Proof.
  intros H. use_groups H. clear Gs.
  destruct (dict_get ARCHIVE_REPORT_MAP (str_upper (string_of_list_ascii wn)))
    as [info|] eqn:D.
  - one_hit ltac:(rewrite D, mk_report; reflexivity) Sp sp.
    split; [repeat split|]. split; [reflexivity|]. split.
    + exists wk, wg, wn, wt. splits; auto.
    + exists info. cbn. splits; auto.
  - no_hit. rewrite D. now rewrite app_nil_r.
Qed.

Lemma arch30_body_spec txt m :
  framed_match true submit_keyword ws1 arch30_name submit_tail txt m ->
  exists hs, (forall issues, arch30_body issues m = Ok (issues ++ hs))
             /\ length hs <= 1
             /\ Forall (fun h => arch30_hit txt h
                                 /\ hit_span h = full_span m) hs.
Proof.
  intros H. use_groups H. clear Gs.
  one_hit ltac:(reflexivity) Sp sp.
  split; [repeat split|]. split; [reflexivity|]. split.
  - exists wk, wg, wn, wt. splits; auto.
  - cbn. auto.
Qed.

Lemma read_body_spec txt m :
  framed_match true submit_keyword ws1 (names_re READ_REPORTS) submit_tail
               txt m ->
  exists hs, (forall issues, read_body issues m = Ok (issues ++ hs))
             /\ length hs <= 1
             /\ Forall (fun h => read_hit txt h
                                 /\ hit_span h = full_span m) hs.
Proof.
  intros H. use_groups H. clear Gs.
  one_hit ltac:(reflexivity) Sp sp.
  split; [repeat split|]. split; [reflexivity|]. split.
  - exists wk, wg, wn, wt. splits; auto.
  - cbn. auto.
Qed.

(* ------------------------------------------------------------------ *)
(** ** The five passes and the scan *)

Section Passes.
Variables (stmt : bool) (kw gap nm tail : re).
Variable body : list hit -> mtch -> result (list hit).
Variable Q : string -> hit -> Prop.
Hypothesis plain_kw : plain kw = true.
Hypothesis plain_gap : plain gap = true.
Hypothesis plain_nm : plain nm = true.
Hypothesis plain_tail : plain tail = true.
Hypothesis body_spec : forall txt m,
  framed_match stmt kw gap nm tail txt m ->
  exists hs, (forall issues, body issues m = Ok (issues ++ hs))
             /\ length hs <= 1
             /\ Forall (fun h => Q txt h /\ hit_span h = full_span m) hs.

Lemma pass_spec txt :
  exists hs,
    (forall issues,
       for_each body (finditer (framed stmt kw gap nm tail) txt) issues
       = Ok (issues ++ hs))
    /\ Forall (Q txt) hs /\ ordered 0 (len txt) (map hit_span hs).
Proof.
  destruct (finditer_framed stmt kw gap nm tail txt) as [F O]; auto.
  eapply for_each_hits; eauto.
Qed.
End Passes.

(** The decomposition of a scan all claims rest on: the result is the
    records of the five passes, each pass run on its own, one after the
    other; a pass yields records of its own kind, in the order of the
    text. *)
Lemma scan_spec txt :
  exists h1 h2 h3 h4 h5,
    find_mm_purchasing_issues (Some txt) = Ok (h1 ++ h2 ++ h3 ++ h4 ++ h5)
    /\ pass txn_body TXN_RE txt = Ok h1
    /\ pass func_body (func_re FUNC_NAMES) txt = Ok h2
    /\ pass arch47_body ARCH47_RE txt = Ok h3
    /\ pass arch30_body ARCH30_RE txt = Ok h4
    /\ pass read_body READ_RE txt = Ok h5
    /\ (Forall (txn_hit txt) h1 /\ ordered 0 (len txt) (map hit_span h1))
    /\ (Forall (func_hit FUNC_NAMES txt) h2
        /\ ordered 0 (len txt) (map hit_span h2))
    /\ (Forall (arch47_hit txt) h3 /\ ordered 0 (len txt) (map hit_span h3))
    /\ (Forall (arch30_hit txt) h4 /\ ordered 0 (len txt) (map hit_span h4))
    /\ (Forall (read_hit txt) h5 /\ ordered 0 (len txt) (map hit_span h5)).
Proof.
  destruct (@pass_spec true txn_keyword txn_gap (names_re TXN_NAMES) txn_tail
              txn_body txn_hit eq_refl eq_refl eq_refl eq_refl
              txn_body_spec txt) as (h1 & E1 & F1 & O1).
  destruct (@pass_spec false func_keyword func_gap (names_re FUNC_NAMES)
              func_tail func_body (func_hit FUNC_NAMES)
              eq_refl eq_refl eq_refl eq_refl
              (func_body_spec FUNC_NAMES) txt) as (h2 & E2 & F2 & O2).
  destruct (@pass_spec true submit_keyword ws1 (names_re ARCH47_NAMES)
              submit_tail arch47_body arch47_hit
              eq_refl eq_refl eq_refl eq_refl
              arch47_body_spec txt) as (h3 & E3 & F3 & O3).
  destruct (@pass_spec true submit_keyword ws1 arch30_name
              submit_tail arch30_body arch30_hit
              eq_refl eq_refl eq_refl eq_refl
              arch30_body_spec txt) as (h4 & E4 & F4 & O4).
  destruct (@pass_spec true submit_keyword ws1 (names_re READ_REPORTS)
              submit_tail read_body read_hit
              eq_refl eq_refl eq_refl eq_refl
              read_body_spec txt) as (h5 & E5 & F5 & O5).
  change (framed true txn_keyword txn_gap (names_re TXN_NAMES) txn_tail)
    with TXN_RE in E1.
  change (framed false func_keyword func_gap (names_re FUNC_NAMES) func_tail)
    with (func_re FUNC_NAMES) in E2.
  change (framed true submit_keyword ws1 (names_re ARCH47_NAMES) submit_tail)
    with ARCH47_RE in E3.
  change (framed true submit_keyword ws1 arch30_name submit_tail)
    with ARCH30_RE in E4.
  change (framed true submit_keyword ws1 (names_re READ_REPORTS) submit_tail)
    with READ_RE in E5.
  exists h1, h2, h3, h4, h5.
  assert (P1 := E1 []). assert (P2 := E2 []). assert (P3 := E3 []).
  assert (P4 := E4 []). assert (P5 := E5 []). simpl in P1, P2, P3, P4, P5.
  splits; auto.
  destruct txt as [|c txt].
  - vm_compute in P1, P2, P3, P4, P5.
    inversion P1; inversion P2; inversion P3; inversion P4; inversion P5.
    reflexivity.
  - unfold find_mm_purchasing_issues.
    change FUNC_RE with (Some (func_re FUNC_NAMES)).
    rewrite E1. cbn [bind]. rewrite E2. cbn [bind]. rewrite E3. cbn [bind].
    rewrite E4. cbn [bind]. rewrite E5. cbn [bind].
    now rewrite <- !app_assoc.
Qed.

Lemma ordered_In lo hi l s e :
  ordered lo hi l -> In (s, e) l -> lo <= s /\ s <= e /\ e <= hi.
Proof.
  revert lo. induction l as [|[s' e'] l IH]; simpl; intros lo O H; [easy|].
  destruct O as (O1 & O2 & O3 & O). destruct H as [H|H].
  - inversion H; subst. auto.
  - destruct (IH _ O H) as (? & ? & ?). lia.
Qed.

Lemma ordered_hit lo hi hs h :
  ordered lo hi (map hit_span hs) -> In h hs ->
  lo <= start_char_in_unit h
  /\ start_char_in_unit h <= end_char_in_unit h
  /\ end_char_in_unit h <= hi.
Proof.
  intros O H. apply (ordered_In _ _ _ _ _ O).
  change (start_char_in_unit h, end_char_in_unit h) with (hit_span h).
  now apply in_map.
Qed.


(** Every record of a scan is a record of one of the five passes, and
    its span lies within the text. *)
Lemma scan_hit_cases txt recs h :
  find_mm_purchasing_issues (Some txt) = Ok recs -> In h recs ->
  (txn_hit txt h \/ func_hit FUNC_NAMES txt h \/ arch47_hit txt h
   \/ arch30_hit txt h \/ read_hit txt h)
  /\ start_char_in_unit h <= end_char_in_unit h
  /\ end_char_in_unit h <= len txt.
Proof.
  intros E H.
  destruct (scan_spec txt)
    as (h1 & h2 & h3 & h4 & h5 & E' & _ & _ & _ & _ & _
        & [F1 O1] & [F2 O2] & [F3 O3] & [F4 O4] & [F5 O5]).
  rewrite E in E'. inversion E'; subst. clear E E'.
  rewrite Forall_forall in F1, F2, F3, F4, F5.
  repeat (apply in_app_or in H; destruct H as [H|H]).
  - split; [auto | now apply (ordered_hit _ _ _ _ O1)].
  - split; [auto | now apply (ordered_hit _ _ _ _ O2)].
  - split; [auto | now apply (ordered_hit _ _ _ _ O3)].
  - split; [auto 6 | now apply (ordered_hit _ _ _ _ O4)].
  - split; [auto 6 | now apply (ordered_hit _ _ _ _ O5)].
Qed.

(* ------------------------------------------------------------------ *)
(** ** Characters that the patterns can capture *)

Lemma in_all_ascii c : In c all_ascii.
Proof.
  unfold all_ascii. rewrite <- (ascii_nat_embedding c).
  apply in_map, in_seq. pose proof (nat_ascii_bounded c). lia.
Qed.

Lemma forall_ascii (P : ascii -> bool) :
  forallb P all_ascii = true -> forall c, P c = true.
Proof.
  intros H c. rewrite forallb_forall in H. apply H, in_all_ascii.
Qed.

(** A text character equal up to case to an ASCII literal is ASCII. *)
Lemma ci_eq_ascii_letter x y :
  is_ascii x = true -> Char.ci_eq x y = true -> is_ascii y = true.
Proof.
  intros Hx Hy.
  assert (H : forallb (fun x => forallb (fun y =>
                implb (is_ascii x && Char.ci_eq x y) (is_ascii y))
                all_ascii) all_ascii = true) by (vm_compute; reflexivity).
  pose proof (forall_ascii _ (forall_ascii _ H x) y) as Hxy.
  simpl in Hxy. rewrite Hx, Hy in Hxy. exact Hxy.
Qed.

(** So is a character of the class [A-Z] under [re.IGNORECASE]. *)
Lemma range_ci_ascii c :
  Char.range_ci 65 90 c = true -> is_ascii c = true.
Proof.
  intros H.
  assert (A : forallb (fun c => implb (Char.range_ci 65 90 c) (is_ascii c))
                all_ascii = true) by (vm_compute; reflexivity).
  pose proof (forall_ascii _ A c) as Hc. simpl in Hc.
  now rewrite H in Hc.
Qed.

(** White space has no case. *)
Lemma upper_space c : Char.is_space c = true -> Char.upper c = c.
Proof.
  intros H.
  assert (A : forallb (fun c => implb (Char.is_space c)
                                   (Ascii.eqb (Char.upper c) c))
                all_ascii = true) by (vm_compute; reflexivity).
  pose proof (forall_ascii _ A c) as Hc. simpl in Hc.
  rewrite H in Hc. now apply Ascii.eqb_eq.
Qed.

(* ------------------------------------------------------------------ *)
(** ** The order of the names of an alternation *)

Lemma hits_prefix n1 : forall n2 c,
  hits n1 c = true -> hits n2 c = true ->
  ci_prefix n1 n2 = true \/ ci_prefix n2 n1 = true.
Proof.
  unfold hits.
  induction n1 as [|x n1 IH]; intros n2 c H1 H2; [now left|].
  destruct n2 as [|y n2]; [now right|].
  simpl in *. destruct (aft c) as [|z a]; [discriminate|].
  unfold Char.ci_eq in *.
  destruct (Ascii.eqb_spec (Char.lower x) (Char.lower z)) as [E1|];
    [|discriminate].
  destruct (Ascii.eqb_spec (Char.lower y) (Char.lower z)) as [E2|];
    [|discriminate].
  rewrite E1, E2, !Ascii.eqb_refl. simpl.
  eapply IH; eauto.
Qed.

Lemma prefix_free_exclusive ns : prefix_free ns = true -> exclusive ns.
Proof.
  unfold prefix_free. intros H c n1 n2 I1 I2 H1 H2.
  rewrite forallb_forall in H.
  pose proof (H _ I1) as A. rewrite forallb_forall in A.
  pose proof (H _ I2) as B. rewrite forallb_forall in B.
  specialize (A _ I2). specialize (B _ I1).
  destruct (String.eqb_spec n1 n2) as [|N]; [assumption|].
  destruct (String.eqb_spec n2 n1) as [|_]; [congruence|].
  simpl in A, B.
  destruct (hits_prefix _ _ _ H1 H2) as [P|P]; rewrite P in *; discriminate.
Qed.

Lemma bt_alts_cons A r r' l (k : cursor -> option A) c :
  bt (alts (r :: r' :: l)) k c
  = match bt r k c with
    | Some x => Some x
    | None => bt (alts (r' :: l)) k c
    end.
Proof. reflexivity. Qed.

Lemma bt_names_none A ns (k : cursor -> option A) c :
  ns <> [] -> (forall n, In n ns -> hits n c = false) ->
  bt (names_re ns) k c = None.
Proof.
  unfold names_re, hits.
  induction ns as [|n [|n' ns] IH]; intros N H; [congruence| |].
  - simpl. specialize (H n (or_introl eq_refl)).
    destruct (lit_i n c); [discriminate | reflexivity].
  - cbn [map]. rewrite bt_alts_cons.
    pose proof (H n (or_introl eq_refl)) as Hn.
    cbn [bt]. destruct (lit_i n c); [discriminate|].
    apply IH; [discriminate|]. intros m Hm. apply H. now right.
Qed.

Lemma bt_names_pick A ns (k : cursor -> option A) c n c' :
  exclusive ns -> In n ns -> lit_i n c = Some c' ->
  bt (names_re ns) k c = k c'.
Proof.
  unfold names_re.
  induction ns as [|n0 [|n1 ns] IH]; intros X I L; [destruct I| |].
  - destruct I as [->|[]]. simpl. now rewrite L.
  - cbn [map]. rewrite bt_alts_cons. cbn [bt].
    assert (X' : exclusive (n1 :: ns)).
    { intros d m1 m2 I1 I2. apply X; now right. }
    destruct (lit_i n0 c) as [c0|] eqn:L0.
    + assert (n0 = n).
      { apply (X c); [now left | exact I | |]; unfold hits.
        - now rewrite L0.
        - now rewrite L. }
      subst n0. rewrite L in L0. inversion L0; subst c0.
      destruct (k c') eqn:K; [reflexivity|].
      destruct (in_dec string_dec n (n1 :: ns)) as [I'|NI].
      * now apply IH.
      * apply (@bt_names_none A (n1 :: ns) k c); [discriminate|].
        intros m Hm. destruct (hits m c) eqn:Hh; [|reflexivity].
        exfalso. apply NI.
        replace n with m; [exact Hm|].
        apply (X c); [now right | exact I | exact Hh |].
        unfold hits. now rewrite L.
    + destruct I as [->|I]; [congruence|]. now apply IH.
Qed.

Lemma exclusive_perm ns ns' :
  Permutation ns ns' -> exclusive ns -> exclusive ns'.
Proof.
  intros P X c n1 n2 I1 I2.
  apply X; (eapply Permutation_in; [apply Permutation_sym; exact P|]);
    assumption.
Qed.

Lemma bt_names_perm ns ns' :
  exclusive ns -> Permutation ns ns' -> ns <> [] ->
  bt_equiv (names_re ns') (names_re ns).
Proof.
  intros X P N A k c.
  assert (N' : ns' <> []).
  { intros ->. apply Permutation_sym, Permutation_nil in P. contradiction. }
  destruct (existsb (fun n => hits n c) ns) eqn:E.
  - apply existsb_exists in E. destruct E as (n & I & H).
    unfold hits in H. destruct (lit_i n c) as [c'|] eqn:L; [|discriminate].
    rewrite (@bt_names_pick A ns k c n c' X I L).
    apply (@bt_names_pick A ns' k c n c'); auto.
    + eapply exclusive_perm; eauto.
    + eapply Permutation_in; eauto.
  - assert (F : forall n, In n ns -> hits n c = false).
    { intros n I. destruct (hits n c) eqn:H; [|reflexivity].
      rewrite <- E. symmetry. apply existsb_exists. eauto. }
    rewrite !bt_names_none; auto.
    intros n I. apply F. eapply Permutation_in; [|exact I].
    now apply Permutation_sym.
Qed.

(** The matcher depends on its continuation through its values only. *)
Lemma star_cont_ext A p (k k' : cursor -> option A) :
  (forall c, k c = k' c) ->
  forall a b mk, star p k b a mk = star p k' b a mk.
Proof.
  intros E. induction a as [|y a IH]; intros b mk; simpl.
  - apply E.
  - rewrite IH, E. reflexivity.
Qed.

Lemma bt_cont_ext A r : forall (k k' : cursor -> option A),
  (forall c, k c = k' c) -> forall c, bt r k c = bt r k' c.
Proof.
  induction r as [ | p | s | a IHa b IHb | a IHa b IHb | a IHa | p | | g a IHa];
    intros k k' E c; simpl.
  - apply E.
  - destruct (aft c); [reflexivity|]. now rewrite E.
  - destruct (lit_i s c); [apply E | reflexivity].
  - apply IHa. intros d. now apply IHb.
  - rewrite (IHa k k' E), (IHb k k' E). reflexivity.
  - rewrite (IHa k k' E), E. reflexivity.
  - now apply star_cont_ext.
  - now rewrite E.
  - apply IHa. intros d. apply E.
Qed.

Lemma search_ext r r' : bt_equiv r r' ->
  forall a b ma, search r ma b a = search r' ma b a.
Proof.
  intros E. induction a as [|y a IH]; intros b ma; simpl; rewrite E.
  - reflexivity.
  - now rewrite IH.
Qed.

Lemma finditer_ext r r' txt :
  bt_equiv r r' -> finditer r txt = finditer r' txt.
Proof.
  intros E. unfold finditer. generalize (2 * len txt + 2).
  intros fuel. generalize false, (@nil ascii), (list_ascii_of_string txt).
  induction fuel as [|fuel IH]; intros ma b a; simpl; [reflexivity|].
  rewrite (search_ext E). destruct (search r' ma b a) as [[s c]|];
    [|reflexivity].
  now rewrite IH.
Qed.

(** The matches of the remote-call pattern and of the read-only pattern
    do not depend on the order in which the sets are iterated. *)
Theorem func_names_order_irrelevant ns txt :
  Permutation FUNC_NAMES ns ->
  finditer (func_re ns) txt = finditer (func_re FUNC_NAMES) txt.
Proof.
  intros P. apply finditer_ext. intros A k c.
  unfold func_re. cbn [bt].
  apply bt_cont_ext. intros d. apply bt_cont_ext. intros e.
  apply (@bt_names_perm FUNC_NAMES ns); auto.
  - apply prefix_free_exclusive. vm_compute. reflexivity.
  - discriminate.
Qed.

Theorem read_names_order_irrelevant ns txt :
  Permutation READ_REPORTS ns ->
  finditer (submit_re (names_re ns)) txt = finditer READ_RE txt.
Proof.
  intros P. apply finditer_ext. intros A k c.
  unfold READ_RE, submit_re. cbn [bt].
  apply bt_cont_ext. intros d. apply bt_cont_ext. intros e.
  apply (@bt_names_perm READ_REPORTS ns); auto.
  - apply prefix_free_exclusive. vm_compute. reflexivity.
  - discriminate.
Qed.

(* ------------------------------------------------------------------ *)
(** ** Matches that the matcher does find *)

Lemma star_greedy_hit A p (k : cursor -> option A) : forall w b a mk x,
  forallb p w = true ->
  star p k (rev w ++ b) a mk = Some x ->
  star p k b (w ++ a) mk = Some x.
Proof.
  induction w as [|y w IH]; intros b a mk x F H; simpl in *; [exact H|].
  apply andb_true_iff in F. destruct F as [Py F]. rewrite Py.
  rewrite (IH (y :: b) a mk x F); [reflexivity|].
  now rewrite <- app_assoc in H.
Qed.

Lemma search_here r ma b a c' :
  bt r (accept ma (length b)) (Cursor b a []) = Some c' ->
  search r ma b a = Some (length b, c').
Proof. intros H. destruct a; simpl; now rewrite H. Qed.

Lemma func_prefix A (k : cursor -> option A) rest :
  bt func_keyword
     (bt func_gap (bt (Grp "name" (names_re FUNC_NAMES)) (bt quote k)))
     (Cursor [] (list_ascii_of_string PORDCH_CALL ++ rest) [])
  = k (Cursor (rev (list_ascii_of_string PORDCH_CALL)) rest
              [("name", (15, 32))]).
Proof.
  vm_compute. now destruct (k _).
Qed.

Lemma func_body_pordch issues m nm sp :
  group m "name" = Some nm -> str_upper nm = PORDCH ->
  span m "full" = Some sp ->
  func_body issues m = Ok (issues ++ [pordch_hit sp]).
Proof.
  intros G U S.
  unfold func_body, group_of, span_of. rewrite G. cbn [expect bind].
  rewrite U, S. reflexivity.
Qed.

Lemma to_dot_hit A (k : cursor -> option A) w b mk x :
  forallb Char.not_dot w = true ->
  k (Cursor ("."%char :: rev w ++ b) [] mk) = Some x ->
  bt to_dot k (Cursor b (w ++ ["."%char]) mk) = Some x.
Proof.
  intros F H. unfold to_dot. cbn [bt bef aft marks].
  apply star_greedy_hit; [exact F|]. exact H.
Qed.

Lemma bt_func_re A names (k : cursor -> option A) c :
  bt (func_re names) k c
  = bt func_keyword
       (bt func_gap
          (bt (Grp "name" (names_re names))
             (bt quote
                (bt to_dot
                   (fun c' => k (set_mark "full" (pos c, pos c') c'))))))
       c.
Proof. reflexivity. Qed.

Lemma finditer_from_S fuel r txt ma b a :
  finditer_from (S fuel) r txt ma b a
  = match search r ma b a with
    | None => []
    | Some (start, c') =>
        Match txt (marks c')
        :: finditer_from fuel r txt (Nat.eqb (pos c') start) (bef c') (aft c')
    end.
Proof. reflexivity. Qed.

Lemma search_func_end names ma b :
  search (func_re names) ma b [] = None.
Proof. reflexivity. Qed.

Lemma pordch_call_matches params :
  forallb Char.not_dot (list_ascii_of_string params) = true ->
  finditer (func_re FUNC_NAMES) (PORDCH_CALL ++ params ++ ".")%string
  = [Match (PORDCH_CALL ++ params ++ ".")%string
           [("full", (0, 34 + len params)); ("name", (15, 32))]].
Proof.
  intros F. unfold finditer.
  set (txt := (PORDCH_CALL ++ params ++ ".")%string).
  replace (2 * len txt + 2) with (S (S (2 * len txt))) by lia.
  assert (L : list_ascii_of_string txt
              = list_ascii_of_string PORDCH_CALL
                ++ list_ascii_of_string params ++ ["."%char]).
  { unfold txt. now rewrite !list_of_append. }
  rewrite L.
  assert (B : bt (func_re FUNC_NAMES) (accept false 0)
                 (Cursor [] (list_ascii_of_string PORDCH_CALL
                             ++ list_ascii_of_string params ++ ["."%char]) [])
              = Some (Cursor ("."%char :: rev (list_ascii_of_string params)
                                ++ rev (list_ascii_of_string PORDCH_CALL)) []
                        [("full", (0, 34 + len params)); ("name", (15, 32))])).
  { rewrite bt_func_re, func_prefix.
    apply to_dot_hit; [exact F|].
    unfold accept, set_mark, pos. cbn [andb bef aft marks].
    do 4 f_equal.
    cbn [length]. rewrite length_app, !length_rev, !length_list_of.
    change (len PORDCH_CALL) with 33. f_equal. lia. }
  rewrite finditer_from_S.
  rewrite (@search_here (func_re FUNC_NAMES) false [] _ _ B).
  cbn [bef aft marks]. rewrite finditer_from_S, search_func_end.
  reflexivity.
Qed.

(** A call of the handler with any parameter text up to the terminator:
    the remote-call pass yields exactly the one ambiguous record, over
    the whole statement. *)
Lemma pordch_call_pass params :
  forallb Char.not_dot (list_ascii_of_string params) = true ->
  pass func_body (func_re FUNC_NAMES) (PORDCH_CALL ++ params ++ ".")%string
  = Ok [pordch_hit (0, 34 + len params)].
Proof.
  intros F. unfold pass. rewrite (pordch_call_matches _ F).
  cbn [for_each].
  rewrite (@func_body_pordch [] _ "IDOC_INPUT_PORDCH" (0, 34 + len params));
    reflexivity.
Qed.

Lemma bt_submit_re A name (k : cursor -> option A) c :
  bt (submit_re name) k c
  = bt (Grp "stmt" submit_keyword)
       (bt ws1
          (bt (Grp "name" name)
             (bt WordB
                (bt to_dot
                   (fun c' => k (set_mark "full" (pos c, pos c') c'))))))
       c.
Proof. reflexivity. Qed.

Lemma search_submit_end name ma b :
  search (submit_re name) ma b [] = None.
Proof. reflexivity. Qed.

Lemma read_prefix A (k : cursor -> option A) name rest :
  In name READ_REPORTS -> breaks (rest ++ ["."%char]) = true ->
  bt (Grp "stmt" submit_keyword)
     (bt ws1 (bt (Grp "name" (names_re READ_REPORTS)) (bt WordB k)))
     (Cursor [] (list_ascii_of_string ("SUBMIT " ++ name) ++ rest
                 ++ ["."%char]) [])
  = k (Cursor (rev (list_ascii_of_string ("SUBMIT " ++ name)))
              (rest ++ ["."%char])
              [("name", (7, 15)); ("stmt", (0, 6))]).
Proof.
  intros I B. unfold breaks in B. apply negb_true_iff in B.
  simpl in I. destruct I as [<-|[<-|[<-|[]]]];
    vm_compute; vm_compute in B; rewrite B; now destruct (k _).
Qed.

Lemma read_call_matches name rest :
  In name READ_REPORTS ->
  forallb Char.not_dot (list_ascii_of_string rest) = true ->
  breaks (list_ascii_of_string rest ++ ["."%char]) = true ->
  finditer READ_RE ("SUBMIT " ++ name ++ rest ++ ".")%string
  = [Match ("SUBMIT " ++ name ++ rest ++ ".")%string
           [("full", (0, 16 + len rest)); ("name", (7, 15));
            ("stmt", (0, 6))]].
Proof.
  intros I F Br. unfold finditer.
  set (txt := ("SUBMIT " ++ name ++ rest ++ ".")%string).
  replace (2 * len txt + 2) with (S (S (2 * len txt))) by lia.
  assert (L : list_ascii_of_string txt
              = list_ascii_of_string ("SUBMIT " ++ name)
                ++ list_ascii_of_string rest ++ ["."%char]).
  { unfold txt. change ("SUBMIT " ++ name ++ rest ++ ".")%string
      with ("SUBMIT " ++ (name ++ rest ++ "."))%string.
    rewrite !list_of_append. now rewrite <- !app_assoc. }
  rewrite L.
  assert (N : len ("SUBMIT " ++ name) = 15).
  { simpl in I. destruct I as [<-|[<-|[<-|[]]]]; reflexivity. }
  assert (B : bt READ_RE (accept false 0)
                 (Cursor [] (list_ascii_of_string ("SUBMIT " ++ name)
                             ++ list_ascii_of_string rest ++ ["."%char]) [])
              = Some (Cursor ("."%char :: rev (list_ascii_of_string rest)
                                ++ rev (list_ascii_of_string
                                          ("SUBMIT " ++ name))) []
                        [("full", (0, 16 + len rest)); ("name", (7, 15));
                         ("stmt", (0, 6))])).
  { unfold READ_RE. rewrite bt_submit_re, read_prefix; [|exact I|exact Br].
    apply to_dot_hit; [exact F|].
    unfold accept, set_mark, pos. cbn [andb bef aft marks].
    do 4 f_equal.
    cbn [length]. rewrite length_app, !length_rev, !length_list_of.
    rewrite N. f_equal. lia. }
  rewrite finditer_from_S.
  rewrite (@search_here READ_RE false [] _ _ B).
  cbn [bef aft marks]. rewrite finditer_from_S.
  unfold READ_RE at 1. rewrite search_submit_end.
  reflexivity.
Qed.

Lemma read_body_hit issues m nm sp :
  group m "name" = Some nm -> span m "full" = Some sp ->
  read_body issues m = Ok (issues ++ [read_report_hit (str_upper nm) sp]).
Proof.
  intros G S.
  unfold read_body, group_of, span_of. rewrite G, S. reflexivity.
Qed.

Lemma slice_inner (pre nm post : string) :
  slice (pre ++ nm ++ post)%string (len pre) (len pre + len nm) = nm.
Proof.
  rewrite (@slice_at _ (list_ascii_of_string pre) (list_ascii_of_string nm)
             (list_ascii_of_string post)).
  - apply string_of_list_ascii_of_string.
  - now rewrite !list_of_append.
  - now rewrite length_list_of.
  - now rewrite !length_list_of.
Qed.

Lemma read_call_pass name rest :
  In name READ_REPORTS ->
  forallb Char.not_dot (list_ascii_of_string rest) = true ->
  breaks (list_ascii_of_string rest ++ ["."%char]) = true ->
  pass read_body READ_RE ("SUBMIT " ++ name ++ rest ++ ".")%string
  = Ok [read_report_hit name (0, 16 + len rest)].
Proof.
  intros I F Br. unfold pass. rewrite read_call_matches; auto.
  cbn [for_each].
  rewrite (@read_body_hit [] _ name (0, 16 + len rest)).
  - simpl in I. destruct I as [<-|[<-|[<-|[]]]]; reflexivity.
  - unfold group, span. cbn [m_marks m_string lookup String.eqb Ascii.eqb
                             Bool.eqb].
    f_equal.
    simpl in I. destruct I as [<-|[<-|[<-|[]]]];
      match goal with
      | |- slice _ _ _ = ?n => apply (slice_inner "SUBMIT " n (rest ++ "."))
      end.
  - reflexivity.
Qed.

(* ------------------------------------------------------------------ *)
(** ** Properties of the scan *)

(** C1, on the code: the invocation of [ME21N], which is not a deprecated
    code, is reported as the deprecated [ME21], its proper prefix; the span
    stops before the [N]. *)
Theorem C1_proper_prefix_is_reported :
  find_mm_purchasing_issues (Some "CALL TRANSACTION ME21N.")
  = Ok [ {| table := "None"; target_type := "Transaction";
            target_name := "ME21";
            start_char_in_unit := 0; end_char_in_unit := 21;
            used_fields := []; ambiguous := false;
            suggested_statement := "CALL TRANSACTION 'ME21N'.";
            suggested_fields := None; note := None |} ]
  /\ slice "CALL TRANSACTION ME21N." 0 21 = "CALL TRANSACTION ME21".
Proof. split; vm_compute; reflexivity. Qed.

(** C2, on the code: the one submission of the read-only report
    [RM06ER30] is reported twice at the same span, by the pass of the
    generic 30 family and by the pass of the read-only reports. *)
Theorem C2_read_report_is_reported_twice :
  exists h4 h5,
    find_mm_purchasing_issues (Some "SUBMIT RM06ER30.") = Ok [h4; h5]
    /\ pass arch30_body ARCH30_RE "SUBMIT RM06ER30." = Ok [h4]
    /\ pass read_body READ_RE "SUBMIT RM06ER30." = Ok [h5]
    /\ hit_span h4 = (0, 16) /\ hit_span h5 = (0, 16)
    /\ target_name h4 = "RM06ER30" /\ target_name h5 = "RM06ER30"
    /\ suggested_statement h4 = "SUBMIT <corresponding RM06**70 report>."
    /\ suggested_statement h5 = SARI_TEXT.
Proof.
  do 2 eexists. split; [vm_compute; reflexivity|].
  splits; vm_compute; reflexivity.
Qed.

(** C3. Span correctness: for every record of a scan of [t], the text of
    [t] under [start_char_in_unit, end_char_in_unit) is, as it stands in
    [t], a call site of the pattern of the record's kind: keyword, gap,
    identifier and trailing syntax; the identifier in upper case is the
    record's [target_name]. *)
Theorem C3_span_is_the_call_site :
  forall (txt : string) (recs : list hit) (h : hit),
    find_mm_purchasing_issues (Some txt) = Ok recs -> In h recs ->
    (target_type h = "Transaction"
     /\ call_site txn_keyword txn_gap (names_re TXN_NAMES) txn_tail
                  txt (hit_span h) (target_name h))
    \/ (target_type h = "FunctionModule"
        /\ call_site func_keyword func_gap (names_re FUNC_NAMES) func_tail
                     txt (hit_span h) (target_name h))
    \/ (target_type h = "Report"
        /\ (call_site submit_keyword ws1 (names_re ARCH47_NAMES) submit_tail
                      txt (hit_span h) (target_name h)
            \/ call_site submit_keyword ws1 arch30_name submit_tail
                         txt (hit_span h) (target_name h)
            \/ call_site submit_keyword ws1 (names_re READ_REPORTS) submit_tail
                         txt (hit_span h) (target_name h))).
Proof.
  intros txt recs h E H.
  destruct (@scan_hit_cases _ _ _ E H) as ([C|[C|[C|[C|C]]]] & _).
  - left. destruct C as (_ & T & wk & wg & wn & wt & repls & S & Lk & Lg
                         & Ln & Lt & N & _).
    split; [exact T|]. exists wk, wg, wn, wt. splits; auto.
  - right; left. destruct C as (_ & T & S & _). auto.
  - right; right. destruct C as (_ & T & S & _). auto.
  - right; right. destruct C as (_ & T & S & _). auto.
  - right; right. destruct C as (_ & T & S & _). auto.
Qed.

Lemma C3_witness :
  find_mm_purchasing_issues (Some sample_report_text) = Ok [sample_report_hit]
  /\ In sample_report_hit [sample_report_hit]
  /\ ((target_type sample_report_hit = "Transaction"
       /\ call_site txn_keyword txn_gap (names_re TXN_NAMES) txn_tail
            sample_report_text (hit_span sample_report_hit)
            (target_name sample_report_hit))
      \/ (target_type sample_report_hit = "FunctionModule"
          /\ call_site func_keyword func_gap (names_re FUNC_NAMES) func_tail
               sample_report_text (hit_span sample_report_hit)
               (target_name sample_report_hit))
      \/ (target_type sample_report_hit = "Report"
          /\ (call_site submit_keyword ws1 (names_re ARCH47_NAMES) submit_tail
                sample_report_text (hit_span sample_report_hit)
                (target_name sample_report_hit)
              \/ call_site submit_keyword ws1 arch30_name submit_tail
                   sample_report_text (hit_span sample_report_hit)
                   (target_name sample_report_hit)
              \/ call_site submit_keyword ws1 (names_re READ_REPORTS)
                   submit_tail
                   sample_report_text (hit_span sample_report_hit)
                   (target_name sample_report_hit)))).
Proof.
  split; [vm_compute; reflexivity|].
  split; [left; reflexivity|].
  apply (@C3_span_is_the_call_site
           sample_report_text [sample_report_hit] sample_report_hit).
  - vm_compute; reflexivity.
  - left; reflexivity.
Defined.

(** C4. For every deprecated transaction code with exactly one
    replacement, the scan of a minimal invocation of it (either keyword,
    the code bare or quoted, the terminator) yields exactly one record:
    a Transaction record for that code over the whole text, with
    [ambiguous = false] and a suggested statement that contains the
    replacement. *)
Theorem C4_single_replacement :
  forall code new kw q,
    dict_get TXN_MAP code = Some [new] ->
    In kw TXN_KEYWORDS -> In q [""; "'"] ->
    exists h,
      find_mm_purchasing_issues (Some (minimal_invocation kw q code)) = Ok [h]
      /\ target_type h = "Transaction" /\ target_name h = code
      /\ hit_span h = (0, len (minimal_invocation kw q code))
      /\ ambiguous h = false
      /\ contains (suggested_statement h) new = true.
Proof.
  intros code new kw q H Hk Hq.
  simpl in Hk, Hq.
  destruct Hk as [<-|[<-|[]]]; destruct Hq as [<-|[<-|[]]];
    unfold TXN_MAP, dict_get in H;
    repeat (match type of H with
            | context [String.eqb code ?k] =>
                destruct (String.eqb_spec code k) as [->|_]
            end;
            [ first [ discriminate H
                    | inversion H; subst;
                      eexists; split; [vm_compute; reflexivity|];
                      splits; vm_compute; reflexivity ] | ]);
    discriminate H.
Qed.

Lemma C4_witness :
  dict_get TXN_MAP "ME28" = Some ["ME29N"]
  /\ In "SUBMIT" TXN_KEYWORDS /\ In "'" [""; "'"]
  /\ exists h,
      find_mm_purchasing_issues
        (Some (minimal_invocation "SUBMIT" "'" "ME28")) = Ok [h]
      /\ target_type h = "Transaction" /\ target_name h = "ME28"
      /\ hit_span h = (0, len (minimal_invocation "SUBMIT" "'" "ME28"))
      /\ ambiguous h = false
      /\ contains (suggested_statement h) "ME29N" = true.
Proof.
  split; [reflexivity|].
  split; [right; left; reflexivity|].
  split; [right; left; reflexivity|].
  apply (@C4_single_replacement "ME28" "ME29N" "SUBMIT" "'").
  - reflexivity.
  - right; left; reflexivity.
  - right; left; reflexivity.
Defined.

(** C5. A Transaction record for [ME24], which has the two replacements
    [ME21N] and [ME22N], is ambiguous, and its suggested statement is the
    single-replacement renderings of the two, for the keyword that was
    matched, joined by [" or "]; so for the two minimal invocations. *)
Theorem C5_two_replacements :
  dict_get TXN_MAP "ME24" = Some ["ME21N"; "ME22N"]
  /\ (forall txt recs h,
        find_mm_purchasing_issues (Some txt) = Ok recs -> In h recs ->
        target_type h = "Transaction" -> target_name h = "ME24" ->
        ambiguous h = true
        /\ exists stmt r1 r2,
             _mk_suggested_statement "txn" "ME24" ["ME21N"] stmt = Ok r1
             /\ _mk_suggested_statement "txn" "ME24" ["ME22N"] stmt = Ok r2
             /\ suggested_statement h = (r1 ++ " or " ++ r2)%string)
  /\ (exists h,
        find_mm_purchasing_issues (Some "CALL TRANSACTION ME24.") = Ok [h]
        /\ target_name h = "ME24" /\ ambiguous h = true
        /\ suggested_statement h
           = "CALL TRANSACTION 'ME21N'. or CALL TRANSACTION 'ME22N'.")
  /\ (exists h,
        find_mm_purchasing_issues (Some "SUBMIT ME24.") = Ok [h]
        /\ target_name h = "ME24" /\ ambiguous h = true
        /\ suggested_statement h = "SUBMIT ME21N. or SUBMIT ME22N.").
Proof.
  split; [reflexivity|]. split; [|split].
  - intros txt recs h E H T N.
    destruct (@scan_hit_cases _ _ _ E H) as ([C|[C|[C|[C|C]]]] & _);
      try (destruct C as (_ & T' & _); rewrite T in T'; discriminate T').
    destruct C as (_ & _ & wk & wg & wn & wt & repls & _ & _ & _ & _ & _
                   & _ & D & _ & A & M).
    rewrite N in D, M. vm_compute in D. inversion D; subst repls.
    split; [exact A|].
    exists (string_of_list_ascii wk).
    unfold _mk_suggested_statement in *.
    cbn [String.eqb Ascii.eqb Bool.eqb length Nat.eqb first hd_error
         expect bind map join concat] in *.
    destruct (startswith (str_upper (string_of_list_ascii wk)) "SUBMIT");
      inversion M; do 2 eexists; splits; reflexivity.
  - eexists. split; [vm_compute; reflexivity|]. splits; reflexivity.
  - eexists. split; [vm_compute; reflexivity|]. splits; reflexivity.
Qed.

Lemma C5_witness :
  find_mm_purchasing_issues (Some sample_me24_text) = Ok [sample_me24_hit]
  /\ In sample_me24_hit [sample_me24_hit]
  /\ target_type sample_me24_hit = "Transaction"
  /\ target_name sample_me24_hit = "ME24"
  /\ ambiguous sample_me24_hit = true
  /\ exists stmt r1 r2,
       _mk_suggested_statement "txn" "ME24" ["ME21N"] stmt = Ok r1
       /\ _mk_suggested_statement "txn" "ME24" ["ME22N"] stmt = Ok r2
       /\ suggested_statement sample_me24_hit = (r1 ++ " or " ++ r2)%string.
Proof.
  split; [vm_compute; reflexivity|].
  split; [left; reflexivity|].
  split; [reflexivity|]. split; [reflexivity|].
  apply (proj1 (proj2 C5_two_replacements)
               sample_me24_text [sample_me24_hit] sample_me24_hit).
  - vm_compute; reflexivity.
  - left; reflexivity.
  - reflexivity.
  - reflexivity.
Defined.

(** C6. The handler [IDOC_INPUT_PORDCH] is replaced by itself.  The loop
    of the remote calls never skips a match of that name: it appends one
    record with [ambiguous = true], whose suggested statement calls the
    same name.  Every FunctionModule record of that name in a scan is of
    this form.  The scan of a call of the handler, with any parameter
    text up to the terminator, yields this record over the whole
    statement, and it is the only FunctionModule record. *)
Theorem C6_self_replaced_handler_is_ambiguous :
  option_map fm_new (dict_get IDOC_MAP PORDCH) = Some PORDCH
  /\ (forall issues m nm sp,
        group m "name" = Some nm -> str_upper nm = PORDCH ->
        span m "full" = Some sp ->
        func_body issues m = Ok (issues ++ [pordch_hit sp]))
  /\ (forall txt recs h,
        find_mm_purchasing_issues (Some txt) = Ok recs -> In h recs ->
        target_type h = "FunctionModule" -> target_name h = PORDCH ->
        ambiguous h = true
        /\ suggested_statement h
           = ("CALL FUNCTION '" ++ target_name h ++ "'.")%string)
  /\ (forall params,
        forallb Char.not_dot (list_ascii_of_string params) = true ->
        exists h1 h3,
          find_mm_purchasing_issues
            (Some (PORDCH_CALL ++ params ++ "."))%string
          = Ok (h1 ++ [pordch_hit (0, 34 + len params)] ++ h3)
          /\ Forall (fun h => target_type h = "Transaction") h1
          /\ Forall (fun h => target_type h = "Report") h3)
  /\ find_mm_purchasing_issues (Some "CALL FUNCTION 'IDOC_INPUT_PORDCH'.")
     = Ok [pordch_hit (0, 34)]
  /\ find_mm_purchasing_issues (Some "call function 'idoc_input_pordch'.")
     = Ok [pordch_hit (0, 34)].
Proof.
  split; [reflexivity|]. split; [|split; [|split; [|split]]].
  - intros issues m nm sp. apply func_body_pordch.
  - intros txt recs h E H T N.
    destruct (@scan_hit_cases _ _ _ E H) as ([C|[C|[C|[C|C]]]] & _);
      try (destruct C as (_ & T' & _); rewrite T in T'; discriminate T').
    destruct C as (_ & _ & _ & info & D & S & _).
    rewrite N in *.
    destruct D as [[D _]|(_ & D & A)]; [discriminate D|].
    vm_compute in D. inversion D; subst info. split; [exact A | exact S].
  - intros params F.
    destruct (scan_spec (PORDCH_CALL ++ params ++ ".")%string)
      as (h1 & h2 & h3 & h4 & h5 & E & _ & P2 & _ & _ & _
          & [F1 _] & _ & [F3 _] & [F4 _] & [F5 _]).
    rewrite (@pordch_call_pass params F) in P2. inversion P2; subst h2.
    exists h1, (h3 ++ h4 ++ h5). split; [exact E|]. split.
    + eapply Forall_impl; [|exact F1]. intros h C. apply C.
    + repeat (apply Forall_app; split).
      * eapply Forall_impl; [|exact F3]. intros h C. apply C.
      * eapply Forall_impl; [|exact F4]. intros h C. apply C.
      * eapply Forall_impl; [|exact F5]. intros h C. apply C.
  - vm_compute; reflexivity.
  - vm_compute; reflexivity.
Qed.

Lemma C6_witness :
  find_mm_purchasing_issues (Some sample_pordch_text)
  = Ok [pordch_hit (0, 34)]
  /\ In (pordch_hit (0, 34)) [pordch_hit (0, 34)]
  /\ target_type (pordch_hit (0, 34)) = "FunctionModule"
  /\ target_name (pordch_hit (0, 34)) = PORDCH
  /\ ambiguous (pordch_hit (0, 34)) = true
  /\ suggested_statement (pordch_hit (0, 34))
     = ("CALL FUNCTION '" ++ target_name (pordch_hit (0, 34)) ++ "'.")%string.
Proof.
  split; [vm_compute; reflexivity|].
  split; [left; reflexivity|].
  split; [reflexivity|]. split; [reflexivity|].
  apply (proj1 (proj2 (proj2 C6_self_replaced_handler_is_ambiguous))
               sample_pordch_text [pordch_hit (0, 34)] (pordch_hit (0, 34))).
  - vm_compute; reflexivity.
  - left; reflexivity.
  - reflexivity.
  - reflexivity.
Defined.

(** C7. Scanning the empty text and scanning an absent text both return
    the empty list of records and raise nothing; so does the endpoint for
    a unit whose code is empty or absent. *)
Theorem C7_empty_or_absent_text :
  find_mm_purchasing_issues (Some "") = Ok []
  /\ find_mm_purchasing_issues None = Ok []
  /\ (forall p i t n ci sl el,
        remediate_mm_purchasing
          [Build_Unit p i t n ci sl el None; Build_Unit p i t n ci sl el (Some "")]
        = Ok [ {| unit_obj := Build_Unit p i t n ci sl el None;
                  mb_txn_usage := [] |};
               {| unit_obj := Build_Unit p i t n ci sl el (Some "");
                  mb_txn_usage := [] |} ]).
Proof. repeat split. Qed.

(** C8. The output of a scan is the records of the five passes one after
    the other: transactions, remote calls, archived reports with an exact
    replacement, archived reports with the generic redirect, read-only
    reports; inside a pass the records follow the text.  It is not the
    document order: a transaction call that stands after a report
    submission is listed before it. *)
Theorem C8_pass_order :
  (forall txt : string,
     exists h1 h2 h3 h4 h5,
       find_mm_purchasing_issues (Some txt) = Ok (h1 ++ h2 ++ h3 ++ h4 ++ h5)
       /\ pass txn_body TXN_RE txt = Ok h1
       /\ FUNC_RE = Some (func_re FUNC_NAMES)
       /\ pass func_body (func_re FUNC_NAMES) txt = Ok h2
       /\ pass arch47_body ARCH47_RE txt = Ok h3
       /\ pass arch30_body ARCH30_RE txt = Ok h4
       /\ pass read_body READ_RE txt = Ok h5
       /\ ordered 0 (len txt) (map hit_span h1)
       /\ ordered 0 (len txt) (map hit_span h2)
       /\ ordered 0 (len txt) (map hit_span h3)
       /\ ordered 0 (len txt) (map hit_span h4)
       /\ ordered 0 (len txt) (map hit_span h5)
       /\ Forall (fun h => target_type h = "Transaction") h1
       /\ Forall (fun h => target_type h = "FunctionModule") h2
       /\ Forall (fun h => target_type h = "Report") (h3 ++ h4 ++ h5))
  /\ (exists h1 h2,
        find_mm_purchasing_issues
          (Some "SUBMIT RM06EV47. CALL TRANSACTION ME21.") = Ok [h1; h2]
        /\ target_type h1 = "Transaction" /\ target_type h2 = "Report"
        /\ end_char_in_unit h2 <= start_char_in_unit h1).
Proof.
  split.
  - intros txt.
    destruct (scan_spec txt)
      as (h1 & h2 & h3 & h4 & h5 & E & P1 & P2 & P3 & P4 & P5
          & [F1 O1] & [F2 O2] & [F3 O3] & [F4 O4] & [F5 O5]).
    exists h1, h2, h3, h4, h5. splits; auto.
    + eapply Forall_impl; [|exact F1]. intros h C. apply C.
    + eapply Forall_impl; [|exact F2]. intros h C. apply C.
    + repeat (apply Forall_app; split).
      * eapply Forall_impl; [|exact F3]. intros h C. apply C.
      * eapply Forall_impl; [|exact F4]. intros h C. apply C.
      * eapply Forall_impl; [|exact F5]. intros h C. apply C.
  - do 2 eexists. split; [vm_compute; reflexivity|].
    simpl. splits; try reflexivity. lia.
Qed.

(** C9. The scan of a submission of a read-only report name, with any
    text that starts off the name up to the terminator, yields a record
    with [ambiguous = true] whose suggested statement is the fixed
    redirect text, the same for all of them, which is no invocation: it is
    the last record of the scan.  The loop of the read-only reports
    appends such a record for every match, and the records of that pass
    are the tail of every scan. *)
Theorem C9_read_only_reports_get_the_redirect :
  (forall name rest,
     In name READ_REPORTS ->
     forallb Char.not_dot (list_ascii_of_string rest) = true ->
     breaks (list_ascii_of_string rest ++ ["."%char]) = true ->
     exists hs,
       find_mm_purchasing_issues (Some ("SUBMIT " ++ name ++ rest ++ "."))%string
       = Ok (hs ++ [read_report_hit name (0, 16 + len rest)]))
  /\ (forall issues m nm sp,
        group m "name" = Some nm -> span m "full" = Some sp ->
        read_body issues m
        = Ok (issues ++ [read_report_hit (str_upper nm) sp]))
  /\ (forall txt,
        exists hs h5,
          find_mm_purchasing_issues (Some txt) = Ok (hs ++ h5)
          /\ pass read_body READ_RE txt = Ok h5
          /\ Forall (fun h => ambiguous h = true
                              /\ suggested_statement h = SARI_TEXT) h5)
  /\ ambiguous (read_report_hit "" (0, 0)) = true
  /\ (forall name sp, suggested_statement (read_report_hit name sp) = SARI_TEXT)
  /\ startswith SARI_TEXT "SUBMIT" = false
  /\ startswith SARI_TEXT "CALL" = false.
Proof.
  split; [|split; [|split]].
  - intros name rest I F Br.
    destruct (scan_spec ("SUBMIT " ++ name ++ rest ++ ".")%string)
      as (h1 & h2 & h3 & h4 & h5 & E & _ & _ & _ & _ & P5 & _).
    rewrite (@read_call_pass name rest I F Br) in P5. inversion P5; subst h5.
    exists (h1 ++ h2 ++ h3 ++ h4). rewrite E. now rewrite <- !app_assoc.
  - intros issues m nm sp. apply read_body_hit.
  - intros txt.
    destruct (scan_spec txt)
      as (h1 & h2 & h3 & h4 & h5 & E & _ & _ & _ & _ & P5 & _ & _ & _ & _
          & [F5 _]).
    exists (h1 ++ h2 ++ h3 ++ h4), h5.
    split; [now rewrite <- !app_assoc|]. split; [exact P5|].
    eapply Forall_impl; [|exact F5].
    intros h (_ & _ & _ & A & S & _). auto.
  - repeat split.
Qed.

Lemma C9_witness :
  In "RM06BR30" READ_REPORTS
  /\ forallb Char.not_dot (list_ascii_of_string " AND RETURN") = true
  /\ breaks (list_ascii_of_string " AND RETURN" ++ ["."%char]) = true
  /\ exists hs,
       find_mm_purchasing_issues
         (Some ("SUBMIT " ++ "RM06BR30" ++ " AND RETURN" ++ "."))%string
       = Ok (hs ++ [read_report_hit "RM06BR30" (0, 16 + len " AND RETURN")]).
Proof.
  split; [right; left; reflexivity|].
  split; [reflexivity|]. split; [reflexivity|].
  apply (proj1 C9_read_only_reports_get_the_redirect "RM06BR30" " AND RETURN").
  - right; left; reflexivity.
  - reflexivity.
  - reflexivity.
Defined.

(** C10. Every record of a scan of [t] has a span within [t]:
    [0 <= start <= end <= len t]; its reserved fields are the constants
    [table = "None"], [used_fields = []] and [suggested_fields = None]. *)
Theorem C10_span_bounds_and_reserved_fields :
  forall (txt : option string) (recs : list hit) (h : hit),
    find_mm_purchasing_issues txt = Ok recs -> In h recs ->
    0 <= start_char_in_unit h
    /\ start_char_in_unit h <= end_char_in_unit h
    /\ end_char_in_unit h <= len (or_empty txt)
    /\ table h = "None" /\ used_fields h = [] /\ suggested_fields h = None.
Proof.
  intros [txt|] recs h E H.
  - assert (L : or_empty (Some txt) = txt) by (destruct txt; reflexivity).
    rewrite L.
    destruct (@scan_hit_cases _ _ _ E H) as (C & B1 & B2).
    assert (R : reserved h).
    { destruct C as [C|[C|[C|[C|C]]]]; apply C. }
    destruct R as (R1 & R2 & R3). splits; auto. lia.
  - inversion E; subst. destruct H.
Qed.

Lemma C10_witness :
  find_mm_purchasing_issues (Some sample_report_text) = Ok [sample_report_hit]
  /\ In sample_report_hit [sample_report_hit]
  /\ (0 <= start_char_in_unit sample_report_hit
      /\ start_char_in_unit sample_report_hit
         <= end_char_in_unit sample_report_hit
      /\ end_char_in_unit sample_report_hit
         <= len (or_empty (Some sample_report_text))
      /\ table sample_report_hit = "None"
      /\ used_fields sample_report_hit = []
      /\ suggested_fields sample_report_hit = None).
Proof.
  split; [vm_compute; reflexivity|].
  split; [left; reflexivity|].
  apply (@C10_span_bounds_and_reserved_fields
           (Some sample_report_text) [sample_report_hit] sample_report_hit).
  - vm_compute; reflexivity.
  - left; reflexivity.
Defined.

(* ------------------------------------------------------------------ *)
(** ** Further lemmas *)

Unset Implicit Arguments.

(* ------------------------------------------------------------------ *)
(** ** Names in upper case *)

Lemma ci_eq_upper x y :
  canonical_char x = true -> Char.ci_eq x y = true -> Char.upper y = x.
Proof.
  intros Hx Hy.
  assert (H : forallb (fun x => forallb (fun y =>
                implb (canonical_char x && Char.ci_eq x y)
                      (Ascii.eqb (Char.upper y) x))
                all_ascii) all_ascii = true) by (vm_compute; reflexivity).
  pose proof (forall_ascii _ (forall_ascii _ H x) y) as Hxy.
  simpl in Hxy. rewrite Hx, Hy in Hxy. now apply Ascii.eqb_eq.
Qed.

Lemma str_upper_list w :
  list_ascii_of_string (str_upper (string_of_list_ascii w))
  = map Char.upper w.
Proof. induction w as [|y w IH]; simpl; [reflexivity | now rewrite IH]. Qed.

Lemma ci_eqs_upper s w :
  canonical s = true -> ci_eqs s w ->
  str_upper (string_of_list_ascii w) = s.
Proof.
  unfold canonical, ci_eqs. intros C H.
  rewrite <- (string_of_list_ascii_of_string s).
  rewrite <- (string_of_list_ascii_of_string (str_upper _)).
  f_equal. rewrite str_upper_list.
  induction H as [|x y l l' Hxy H IH]; [reflexivity|].
  simpl in C. apply andb_true_iff in C. destruct C as [Cx C].
  simpl. rewrite (ci_eq_upper _ _ Cx Hxy). f_equal. now apply IH.
Qed.

Lemma lang_names ns w :
  ns <> [] -> lang (names_re ns) w -> exists n, In n ns /\ ci_eqs n w.
Proof.
  unfold names_re.
  induction ns as [|n [|n' ns] IH]; intros N H; [congruence| |].
  - exists n. split; [now left | exact H].
  - cbn [map alts] in H. destruct H as [H|H].
    + exists n. split; [now left | exact H].
    + destruct IH as (m & I & E); [discriminate | exact H |].
      exists m. split; [now right | exact E].
Qed.

Lemma names_lang ns n w :
  In n ns -> ci_eqs n w -> lang (names_re ns) w.
Proof.
  unfold names_re.
  induction ns as [|n0 [|n1 ns] IH]; intros I E; [destruct I| |].
  - destruct I as [->|[]]. exact E.
  - cbn [map alts]. destruct I as [->|I]; [now left|].
    right. now apply IH.
Qed.

(** The identifier matched by an alternation of canonical names is, in upper case, one of the names. *)
Lemma name_is_key ns w :
  ns <> [] -> forallb canonical ns = true -> lang (names_re ns) w ->
  In (str_upper (string_of_list_ascii w)) ns.
Proof.
  intros N C H. destruct (lang_names ns w N H) as (n & I & E).
  rewrite forallb_forall in C.
  now rewrite (ci_eqs_upper n w (C _ I) E).
Qed.

(* ------------------------------------------------------------------ *)
(** ** Every match yields one record *)

Lemma txn_key_repls n :
  In n TXN_NAMES -> exists r rs, dict_get TXN_MAP n = Some (r :: rs).
Proof.
  intros H. vm_compute in H.
  repeat (destruct H as [<-|H]; [do 2 eexists; reflexivity|]). destruct H.
Qed.

Lemma func_key_info n :
  In n FUNC_NAMES ->
  (exists info, dict_get BAPI_MAP n = Some info)
  \/ (dict_get BAPI_MAP n = None /\ exists info, dict_get IDOC_MAP n = Some info).
Proof.
  intros H. vm_compute in H.
  repeat (destruct H as [<-|H];
          [first [left; eexists; reflexivity
                 | right; split; [reflexivity | eexists; reflexivity]]|]).
  destruct H.
Qed.

Lemma arch47_key_info n :
  In n ARCH47_NAMES -> exists info, dict_get ARCHIVE_REPORT_MAP n = Some info.
Proof.
  intros H. vm_compute in H.
  repeat (destruct H as [<-|H]; [eexists; reflexivity|]). destruct H.
Qed.

Ltac the_hit fin Sp sp :=
  eexists; split; [open_body; fin |
    split; [unfold hit_span; simpl; rewrite (@full_span_some _ _ Sp);
            now destruct sp|]].

Lemma txn_body_exact txt m :
  framed_match true txn_keyword txn_gap (names_re TXN_NAMES) txn_tail txt m ->
  exists h, (forall issues, txn_body issues m = Ok (issues ++ [h]))
            /\ txn_rec txt m h.
Proof.
  intros H. use_groups H. specialize (Gs eq_refl).
  assert (K : In (str_upper (string_of_list_ascii wn)) TXN_NAMES).
  { apply name_is_key; [discriminate | reflexivity | exact Ln]. }
  destruct (txn_key_repls _ K) as (r & repls & D).
  destruct (mk_txn_ok (str_upper (string_of_list_ascii wn)) (r :: repls)
                      (string_of_list_ascii wk)) as (s & Hs).
  the_hit ltac:(rewrite D, Hs; reflexivity) Sp sp.
  split.
  - split; [repeat split|]. split; [reflexivity|].
    exists wk, wg, wn, wt, (r :: repls).
    cbn [start_char_in_unit end_char_in_unit target_name ambiguous
         suggested_statement].
    splits; auto. discriminate.
  - cbn [note target_name]. unfold txn_note.
    destruct (str_upper (string_of_list_ascii wn) =? "ME27");
      destruct (str_upper (string_of_list_ascii wn) =? "ME25"); reflexivity.
Qed.

Lemma func_body_exact txt m :
  framed_match false func_keyword func_gap (names_re FUNC_NAMES) func_tail
               txt m ->
  exists h, (forall issues, func_body issues m = Ok (issues ++ [h]))
            /\ func_rec txt m h.
Proof.
  intros H. use_groups H. clear Gs.
  assert (K : In (str_upper (string_of_list_ascii wn)) FUNC_NAMES).
  { apply name_is_key; [discriminate | reflexivity | exact Ln]. }
  destruct (func_key_info _ K) as [(info & DB)|(DB & info & DI)].
  - the_hit ltac:(rewrite DB; cbn [expect bind]; rewrite mk_func;
                  reflexivity) Sp sp.
    split; [repeat split|]. split; [reflexivity|]. split.
    + exists wk, wg, wn, wt. splits; auto.
    + exists info. cbn. splits; auto.
  - the_hit ltac:(rewrite DB, DI; cbn [expect bind]; rewrite mk_func;
                  reflexivity) Sp sp.
    split; [repeat split|]. split; [reflexivity|]. split.
    + exists wk, wg, wn, wt. splits; auto.
    + exists info. cbn. splits; auto.
Qed.

Lemma arch47_body_exact txt m :
  framed_match true submit_keyword ws1 (names_re ARCH47_NAMES) submit_tail
               txt m ->
  exists h, (forall issues, arch47_body issues m = Ok (issues ++ [h]))
            /\ arch47_rec txt m h.
Proof.
  intros H. use_groups H. clear Gs.
  assert (K : In (str_upper (string_of_list_ascii wn)) ARCH47_NAMES).
  { apply name_is_key; [discriminate | reflexivity | exact Ln]. }
  destruct (arch47_key_info _ K) as (info & D).
  the_hit ltac:(rewrite D, mk_report; reflexivity) Sp sp.
  split; [repeat split|]. split; [reflexivity|]. split.
  - exists wk, wg, wn, wt. splits; auto.
  - exists info. cbn. splits; auto.
Qed.

Lemma arch30_body_exact txt m :
  framed_match true submit_keyword ws1 arch30_name submit_tail txt m ->
  exists h, (forall issues, arch30_body issues m = Ok (issues ++ [h]))
            /\ arch30_rec txt m h.
Proof.
  intros H. use_groups H. clear Gs.
  the_hit ltac:(reflexivity) Sp sp.
  split; [repeat split|]. split; [reflexivity|]. split.
  - exists wk, wg, wn, wt. splits; auto.
  - cbn. auto.
Qed.

Lemma read_body_exact txt m :
  framed_match true submit_keyword ws1 (names_re READ_REPORTS) submit_tail
               txt m ->
  exists h, (forall issues, read_body issues m = Ok (issues ++ [h]))
            /\ read_rec txt m h.
Proof.
  intros H. use_groups H. clear Gs.
  the_hit ltac:(reflexivity) Sp sp.
  split; [repeat split|]. split; [reflexivity|]. split.
  - exists wk, wg, wn, wt. splits; auto.
  - cbn. auto.
Qed.

(** A loop whose body appends exactly one record per match. *)
Lemma for_each_exact (good : mtch -> Prop) (Q : mtch -> hit -> Prop)
      (body : list hit -> mtch -> result (list hit)) :
  (forall m, good m ->
     exists h, (forall issues, body issues m = Ok (issues ++ [h])) /\ Q m h) ->
  forall ms, Forall good ms ->
    exists hs, (forall issues, for_each body ms issues = Ok (issues ++ hs))
               /\ Forall2 Q ms hs.
Proof.
  intros B. induction ms as [|m ms IH]; intros G.
  - exists []. split; [intros; simpl; now rewrite app_nil_r | constructor].
  - inversion G as [|? ? Gm Gms]; subst.
    destruct (B m Gm) as (h & Eb & Qh).
    destruct (IH Gms) as (hs & Eh & Fq).
    exists (h :: hs). split; [|now constructor].
    intros issues. simpl. rewrite Eb. simpl. rewrite Eh.
    now rewrite <- app_assoc.
Qed.

Lemma pass_exact stmt kw gap nm tail body (Q : string -> mtch -> hit -> Prop) :
  plain kw = true -> plain gap = true -> plain nm = true ->
  plain tail = true ->
  (forall txt m, framed_match stmt kw gap nm tail txt m ->
     exists h, (forall issues, body issues m = Ok (issues ++ [h]))
               /\ Q txt m h) ->
  forall txt,
    exists hs, pass body (framed stmt kw gap nm tail) txt = Ok hs
               /\ Forall2 (Q txt) (finditer (framed stmt kw gap nm tail) txt) hs.
Proof.
  intros Pk Pg Pn Pt B txt.
  destruct (@finditer_framed stmt kw gap nm tail txt Pk Pg Pn Pt) as [F _].
  destruct (for_each_exact _ (Q txt) body (B txt) _ F) as (hs & E & F2).
  exists hs. split; [apply (E []) | exact F2].
Qed.

(** The scan, match by match: the result is the records of the five
    loops, and every loop appends exactly one record for each match of
    its pattern. *)
Lemma scan_exact txt :
  exists h1 h2 h3 h4 h5,
    find_mm_purchasing_issues (Some txt) = Ok (h1 ++ h2 ++ h3 ++ h4 ++ h5)
    /\ Forall2 (txn_rec txt) (finditer TXN_RE txt) h1
    /\ Forall2 (func_rec txt) (finditer (func_re FUNC_NAMES) txt) h2
    /\ Forall2 (arch47_rec txt) (finditer ARCH47_RE txt) h3
    /\ Forall2 (arch30_rec txt) (finditer ARCH30_RE txt) h4
    /\ Forall2 (read_rec txt) (finditer READ_RE txt) h5.
Proof.
  destruct (scan_spec txt)
    as (h1 & h2 & h3 & h4 & h5 & E & P1 & P2 & P3 & P4 & P5 & _).
  destruct (pass_exact true txn_keyword txn_gap (names_re TXN_NAMES) txn_tail
              txn_body txn_rec eq_refl eq_refl eq_refl eq_refl
              txn_body_exact txt) as (k1 & Q1 & F1).
  destruct (pass_exact false func_keyword func_gap (names_re FUNC_NAMES)
              func_tail func_body func_rec eq_refl eq_refl eq_refl eq_refl
              func_body_exact txt) as (k2 & Q2 & F2).
  destruct (pass_exact true submit_keyword ws1 (names_re ARCH47_NAMES)
              submit_tail arch47_body arch47_rec eq_refl eq_refl eq_refl
              eq_refl arch47_body_exact txt) as (k3 & Q3 & F3).
  destruct (pass_exact true submit_keyword ws1 arch30_name
              submit_tail arch30_body arch30_rec eq_refl eq_refl eq_refl
              eq_refl arch30_body_exact txt) as (k4 & Q4 & F4).
  destruct (pass_exact true submit_keyword ws1 (names_re READ_REPORTS)
              submit_tail read_body read_rec eq_refl eq_refl eq_refl
              eq_refl read_body_exact txt) as (k5 & Q5 & F5).
  change (framed true txn_keyword txn_gap (names_re TXN_NAMES) txn_tail)
    with TXN_RE in *.
  change (framed false func_keyword func_gap (names_re FUNC_NAMES) func_tail)
    with (func_re FUNC_NAMES) in *.
  change (framed true submit_keyword ws1 (names_re ARCH47_NAMES) submit_tail)
    with ARCH47_RE in *.
  change (framed true submit_keyword ws1 arch30_name submit_tail)
    with ARCH30_RE in *.
  change (framed true submit_keyword ws1 (names_re READ_REPORTS) submit_tail)
    with READ_RE in *.
  rewrite P1 in Q1. rewrite P2 in Q2. rewrite P3 in Q3. rewrite P4 in Q4.
  rewrite P5 in Q5.
  inversion Q1; inversion Q2; inversion Q3; inversion Q4; inversion Q5; subst.
  exists k1, k2, k3, k4, k5. splits; auto.
Qed.

(* ------------------------------------------------------------------ *)
(** ** The records of a scan, match by match *)

Lemma Forall2_In_r {A B} (Q : A -> B -> Prop) l l' y :
  Forall2 Q l l' -> In y l' -> exists x, In x l /\ Q x y.
Proof.
  induction 1 as [|a b l l' Hab H IH]; intros I; [destruct I|].
  destruct I as [<-|I].
  - exists a. split; [now left | exact Hab].
  - destruct (IH I) as (x & Ix & Qx). exists x. split; [now right | exact Qx].
Qed.

Lemma Forall2_Forall_r {A B} (Q : A -> B -> Prop) (P : B -> Prop) l l' :
  (forall x y, Q x y -> P y) -> Forall2 Q l l' -> Forall P l'.
Proof. intros H. induction 1; constructor; eauto. Qed.

(** Every record of a scan is the record of a match of one of the five
    patterns. *)
Lemma scan_rec_cases txt recs h :
  find_mm_purchasing_issues (Some txt) = Ok recs -> In h recs ->
  (exists m, In m (finditer TXN_RE txt) /\ txn_rec txt m h)
  \/ (exists m, In m (finditer (func_re FUNC_NAMES) txt) /\ func_rec txt m h)
  \/ (exists m, In m (finditer ARCH47_RE txt) /\ arch47_rec txt m h)
  \/ (exists m, In m (finditer ARCH30_RE txt) /\ arch30_rec txt m h)
  \/ (exists m, In m (finditer READ_RE txt) /\ read_rec txt m h).
Proof.
  intros E H.
  destruct (scan_exact txt)
    as (h1 & h2 & h3 & h4 & h5 & E' & F1 & F2 & F3 & F4 & F5).
  rewrite E in E'. inversion E'; subst. clear E E'.
  repeat (apply in_app_or in H; destruct H as [H|H]).
  - left. eapply Forall2_In_r; eauto.
  - right; left. eapply Forall2_In_r; eauto.
  - right; right; left. eapply Forall2_In_r; eauto.
  - right; right; right; left. eapply Forall2_In_r; eauto.
  - right; right; right; right. eapply Forall2_In_r; eauto.
Qed.

Lemma dict_get_In {V} (d : dict V) k v :
  dict_get d k = Some v -> In (k, v) d.
Proof.
  induction d as [|[k' v'] d IH]; simpl; [discriminate|].
  destruct (String.eqb_spec k k') as [->|_].
  - intros H. inversion H. now left.
  - intros H. right. now apply IH.
Qed.

Lemma dict_get_key {V} (d : dict V) k v :
  dict_get d k = Some v -> In k (dict_keys d).
Proof.
  intros H. apply dict_get_In in H. unfold dict_keys.
  change k with (fst (k, v)). now apply in_map.
Qed.

Lemma str_upper_app a b :
  str_upper (string_of_list_ascii (a ++ b))
  = (str_upper (string_of_list_ascii a)
     ++ str_upper (string_of_list_ascii b))%string.
Proof. induction a as [|x a IH]; simpl; [reflexivity | now rewrite IH]. Qed.

Lemma range_ci_upper y :
  Char.range_ci 65 90 y = true -> Char.in_range 65 90 (Char.upper y) = true.
Proof.
  intros H.
  assert (A : forallb (fun c => implb (Char.range_ci 65 90 c)
                                   (Char.in_range 65 90 (Char.upper c)))
                all_ascii = true) by (vm_compute; reflexivity).
  pose proof (forall_ascii _ A y) as Hy. simpl in Hy. now rewrite H in Hy.
Qed.

Lemma arch30_name_family wn :
  lang arch30_name wn -> family30 (str_upper (string_of_list_ascii wn)).
Proof.
  intros (u & vw & -> & Lu & v & w & -> & Lv & Lw).
  exists (str_upper (string_of_list_ascii u)),
         (str_upper (string_of_list_ascii v)).
  split; [|split].
  - apply name_is_key; [discriminate | reflexivity | exact Lu].
  - rewrite str_upper_list. simpl in Lv.
    rewrite forallb_forall in *. intros c Hc.
    apply in_map_iff in Hc. destruct Hc as (y & <- & Hy).
    apply range_ci_upper. now apply Lv.
  - rewrite !str_upper_app. do 2 f_equal.
    apply ci_eqs_upper; [reflexivity | exact Lw].
Qed.



Lemma lang_to_dot w :
  lang to_dot w -> exists u, w = u ++ ["."%char]
                             /\ forallb Char.not_dot u = true.
Proof.
  intros (u & v & -> & Lu & y & Hy & ->). exists u. split; [|exact Lu].
  do 2 f_equal. unfold Char.not_dot in Hy. rewrite negb_involutive in Hy.
  apply N.eqb_eq in Hy. unfold Char.code in Hy.
  rewrite <- (ascii_N_embedding y), Hy. reflexivity.
Qed.

Lemma In_slice c t i j :
  In c (list_ascii_of_string (slice t i j)) -> In c (list_ascii_of_string t).
Proof.
  unfold slice. rewrite list_of_substring. intros H.
  rewrite <- (firstn_skipn i (list_ascii_of_string t)).
  apply in_or_app. right.
  rewrite <- (firstn_skipn (j - i) (skipn i (list_ascii_of_string t))).
  apply in_or_app. now left.
Qed.

Lemma not_dot_In u : forallb Char.not_dot u = true -> ~ In "."%char u.
Proof.
  intros F I. rewrite forallb_forall in F. apply F in I. discriminate I.
Qed.

(** The records of a kind other than Transaction: their spans end with
    the terminator. *)
Lemma lang_func_tail w :
  lang func_tail w -> exists u, w = u ++ ["."%char].
Proof.
  intros (q & v & -> & _ & Lv).
  destruct (lang_to_dot v Lv) as (u & -> & _).
  exists (q ++ u). now rewrite app_assoc.
Qed.

Lemma lang_submit_tail w :
  lang submit_tail w -> exists u, w = u ++ ["."%char].
Proof.
  intros (q & v & -> & -> & Lv).
  destruct (lang_to_dot v Lv) as (u & -> & _).
  exists u. reflexivity.
Qed.

Lemma call_site_dot kw gap nm tail txt sp name :
  (forall w, lang tail w -> exists u, w = u ++ ["."%char]) ->
  call_site kw gap nm tail txt sp name ->
  exists body,
    list_ascii_of_string (slice txt (fst sp) (snd sp)) = body ++ ["."%char].
Proof.
  intros T (wk & wg & wn & wt & S & _ & _ & _ & Lt & _).
  destruct (T wt Lt) as (u & ->).
  exists (wk ++ wg ++ wn ++ u). rewrite S. now rewrite <- !app_assoc.
Qed.

(* ------------------------------------------------------------------ *)
(** ** Further properties of the scan *)

(** X1. The scan raises nothing, whatever the text: none of the lookups,
    group accesses and list accesses of its five loops can fail. *)
Theorem X1_scan_never_raises :
  forall txt : option string,
    exists recs, find_mm_purchasing_issues txt = Ok recs.
Proof.
  intros [txt|]; [|now exists []].
  destruct (scan_exact txt) as (h1 & h2 & h3 & h4 & h5 & E & _). eauto.
Qed.





Lemma family30_not_archive name :
  family30 name -> ~ In name (dict_keys ARCHIVE_REPORT_MAP).
Proof.
  intros (p & mid & _ & _ & ->) I.
  assert (R : exists l, rev (list_ascii_of_string (p ++ mid ++ "30"))
                        = "0"%char :: "3"%char :: l).
  { rewrite !list_of_append, !rev_app_distr. simpl. eauto. }
  destruct R as (l & R).
  unfold dict_keys, ARCHIVE_REPORT_MAP in I. cbn [map fst In] in I.
  repeat (destruct I as [I|I];
          [rewrite <- I in R; vm_compute in R; discriminate R|]).
  destruct I.
Qed.

Lemma read_not_archive name :
  In name READ_REPORTS -> ~ In name (dict_keys ARCHIVE_REPORT_MAP).
Proof.
  intros I J. vm_compute in I.
  repeat (destruct I as [<-|I]; [vm_compute in J; intuition discriminate|]).
  destruct I.
Qed.

Lemma txn_ambiguous name repls :
  dict_get TXN_MAP name = Some repls ->
  ((1 <? length repls)%nat = true <-> name = "ME24").
Proof.
  intros H. unfold TXN_MAP, dict_get in H.
  repeat (match type of H with
          | context [String.eqb name ?k] =>
              destruct (String.eqb_spec name k) as [->|_]
          end;
          [inversion H; subst; split; intros A;
           first [reflexivity | cbv in A; discriminate A]|]).
  discriminate H.
Qed.

(** X5. Which records are ambiguous: a Transaction record exactly when
    its code is ME24, the one code with two replacements; a FunctionModule
    record exactly when its name is IDOC_INPUT_PORDCH, the one name that
    is replaced by itself; a Report record exactly when its name is not a
    key of the table of the archived reports. *)
Theorem X5_which_records_are_ambiguous :
  forall (txt : string) (recs : list hit) (h : hit),
    find_mm_purchasing_issues (Some txt) = Ok recs -> In h recs ->
    (target_type h = "Transaction"
     /\ (ambiguous h = true <-> target_name h = "ME24"))
    \/ (target_type h = "FunctionModule"
        /\ (ambiguous h = true <-> target_name h = PORDCH))
    \/ (target_type h = "Report"
        /\ (ambiguous h = false
            <-> In (target_name h) (dict_keys ARCHIVE_REPORT_MAP))).
Proof.
  intros txt recs h E H.
  destruct (@scan_hit_cases _ _ _ E H) as ([C|[C|[C|[C|C]]]] & _).
  - left. destruct C as (_ & T & wk & wg & wn & wt & repls & _ & _ & _ & _
                         & _ & _ & D & _ & A & _).
    split; [exact T|]. rewrite A. now apply txn_ambiguous.
  - right; left. destruct C as (_ & T & _ & info & D & _).
    split; [exact T|].
    destruct D as [[D A]|(B & D & A)]; rewrite A.
    + split; [discriminate|]. intros N. rewrite N in D. discriminate D.
    + clear B. revert D. generalize (target_name h). intros n D.
      apply dict_get_In in D. unfold IDOC_MAP in D. cbn [In] in D.
      destruct D as [D|[D|[D|[]]]]; inversion D; subst;
        (split; intros X; first [reflexivity | cbv in X; discriminate X]).
  - right; right. destruct C as (_ & T & _ & info & D & A & _).
    split; [exact T|]. rewrite A. split; [|reflexivity].
    intros _. eapply dict_get_key; eauto.
  - right; right. destruct C as (_ & T & S & A & _). split; [exact T|].
    rewrite A. split; [discriminate|]. intros I. exfalso.
    destruct S as (wk & wg & wn & wt & _ & _ & _ & Ln & _ & N).
    rewrite N in I.
    exact (family30_not_archive _ (arch30_name_family wn Ln) I).
  - right; right. destruct C as (_ & T & S & A & _). split; [exact T|].
    rewrite A. split; [discriminate|]. intros I. exfalso.
    destruct S as (wk & wg & wn & wt & _ & _ & _ & Ln & _ & N).
    rewrite N in I.
    refine (read_not_archive _ _ I).
    apply name_is_key; [discriminate | reflexivity | exact Ln].
Qed.

Lemma X5_witness :
  find_mm_purchasing_issues (Some sample_me24_text) = Ok [sample_me24_hit]
  /\ In sample_me24_hit [sample_me24_hit]
  /\ ((target_type sample_me24_hit = "Transaction"
       /\ (ambiguous sample_me24_hit = true
           <-> target_name sample_me24_hit = "ME24"))
      \/ (target_type sample_me24_hit = "FunctionModule"
          /\ (ambiguous sample_me24_hit = true
              <-> target_name sample_me24_hit = PORDCH))
      \/ (target_type sample_me24_hit = "Report"
          /\ (ambiguous sample_me24_hit = false
              <-> In (target_name sample_me24_hit)
                     (dict_keys ARCHIVE_REPORT_MAP)))).
Proof.
  split; [vm_compute; reflexivity|].
  split; [left; reflexivity|].
  apply (X5_which_records_are_ambiguous sample_me24_text [sample_me24_hit]).
  - vm_compute; reflexivity.
  - left; reflexivity.
Defined.

Lemma fm_notes_present (d : dict fm_info) k info :
  d = BAPI_MAP \/ d = IDOC_MAP ->
  dict_get d k = Some info -> truthy (fm_note info) <> None.
Proof.
  intros [->| ->] D; apply dict_get_In in D;
    [unfold BAPI_MAP in D | unfold IDOC_MAP in D]; cbn [In] in D;
    repeat (destruct D as [D|D]; [inversion D; subst; discriminate|]);
    destruct D.
Qed.

(** X6. The notes: a Transaction record carries a note exactly for the
    codes ME25 and ME27, with the text of the code; every FunctionModule
    record and every Report record carries a note. *)
Theorem X6_notes :
  forall (txt : string) (recs : list hit) (h : hit),
    find_mm_purchasing_issues (Some txt) = Ok recs -> In h recs ->
    (target_type h = "Transaction" /\ note h = txn_note (target_name h)
     /\ (note h <> None
         <-> target_name h = "ME25" \/ target_name h = "ME27"))
    \/ (target_type h <> "Transaction" /\ note h <> None).
Proof.
  intros txt recs h E H.
  destruct (scan_rec_cases txt recs h E H)
    as [(m & _ & _ & C & N)|[(m & _ & _ & C)|[(m & _ & _ & C)
       |[(m & _ & _ & C)|(m & _ & _ & C)]]]].
  - left. destruct C as (_ & T & _). split; [exact T|]. split; [exact N|].
    rewrite N. unfold txn_note.
    destruct (String.eqb_spec (target_name h) "ME27") as [->|N7].
    + split; [auto | discriminate].
    + destruct (String.eqb_spec (target_name h) "ME25") as [->|N5].
      * split; [auto | discriminate].
      * split; [congruence | intros [?|?]; congruence].
  - right. destruct C as (_ & T & _ & info & D & _ & N).
    split; [rewrite T; discriminate|]. rewrite N.
    destruct D as [[D _]|(_ & D & _)].
    + eapply (fm_notes_present BAPI_MAP); eauto.
    + eapply (fm_notes_present IDOC_MAP); eauto.
  - right. destruct C as (_ & T & _ & info & _ & _ & _ & N).
    split; [rewrite T; discriminate|]. rewrite N. discriminate.
  - right. destruct C as (_ & T & _ & _ & _ & N).
    split; [rewrite T; discriminate|]. rewrite N. discriminate.
  - right. destruct C as (_ & T & _ & _ & _ & N).
    split; [rewrite T; discriminate|]. rewrite N. discriminate.
Qed.

Lemma X6_witness :
  find_mm_purchasing_issues (Some sample_me27_text) = Ok [sample_me27_hit]
  /\ In sample_me27_hit [sample_me27_hit]
  /\ ((target_type sample_me27_hit = "Transaction"
       /\ note sample_me27_hit = txn_note (target_name sample_me27_hit)
       /\ (note sample_me27_hit <> None
           <-> target_name sample_me27_hit = "ME25"
               \/ target_name sample_me27_hit = "ME27"))
      \/ (target_type sample_me27_hit <> "Transaction"
          /\ note sample_me27_hit <> None)).
Proof.
  split; [vm_compute; reflexivity|].
  split; [left; reflexivity|].
  apply (X6_notes sample_me27_text [sample_me27_hit]).
  - vm_compute; reflexivity.
  - left; reflexivity.
Defined.

(** X7. The span of a FunctionModule or Report record ends with the
    statement terminator: the last character of the text under it is a
    dot. *)
Theorem X7_span_ends_with_the_terminator :
  forall (txt : string) (recs : list hit) (h : hit),
    find_mm_purchasing_issues (Some txt) = Ok recs -> In h recs ->
    target_type h <> "Transaction" ->
    exists body,
      list_ascii_of_string
        (slice txt (start_char_in_unit h) (end_char_in_unit h))
      = body ++ ["."%char].
Proof.
  intros txt recs h E H T.
  destruct (@scan_hit_cases _ _ _ E H) as ([C|[C|[C|[C|C]]]] & _).
  - destruct C as (_ & T' & _). contradiction.
  - destruct C as (_ & _ & S & _).
    apply (call_site_dot _ _ _ _ _ _ _ lang_func_tail S).
  - destruct C as (_ & _ & S & _).
    apply (call_site_dot _ _ _ _ _ _ _ lang_submit_tail S).
  - destruct C as (_ & _ & S & _).
    apply (call_site_dot _ _ _ _ _ _ _ lang_submit_tail S).
  - destruct C as (_ & _ & S & _).
    apply (call_site_dot _ _ _ _ _ _ _ lang_submit_tail S).
Qed.

Lemma X7_witness :
  find_mm_purchasing_issues (Some sample_report_text) = Ok [sample_report_hit]
  /\ In sample_report_hit [sample_report_hit]
  /\ target_type sample_report_hit <> "Transaction"
  /\ exists body,
       list_ascii_of_string
         (slice sample_report_text (start_char_in_unit sample_report_hit)
                (end_char_in_unit sample_report_hit))
       = body ++ ["."%char].
Proof.
  split; [vm_compute; reflexivity|].
  split; [left; reflexivity|].
  split; [discriminate|].
  apply (X7_span_ends_with_the_terminator
           sample_report_text [sample_report_hit]).
  - vm_compute; reflexivity.
  - left; reflexivity.
  - discriminate.
Defined.

(** X8. A text without a statement terminator yields Transaction records
    only: an unterminated remote call or report submission is not
    reported. *)
Theorem X8_no_terminator_only_transactions :
  forall (txt : string) (recs : list hit),
    forallb Char.not_dot (list_ascii_of_string txt) = true ->
    find_mm_purchasing_issues (Some txt) = Ok recs ->
    Forall (fun h => target_type h = "Transaction") recs.
Proof.
  intros txt recs F E. apply Forall_forall. intros h H.
  destruct (String.eqb_spec (target_type h) "Transaction") as [T|T];
    [exact T|]. exfalso.
  destruct (@scan_hit_cases _ _ _ E H) as (C & _).
  assert (D : exists body,
             list_ascii_of_string
               (slice txt (start_char_in_unit h) (end_char_in_unit h))
             = body ++ ["."%char]).
  { destruct C as [C|[C|[C|[C|C]]]].
    - destruct C as (_ & T' & _). contradiction.
    - destruct C as (_ & _ & S & _).
      apply (call_site_dot _ _ _ _ _ _ _ lang_func_tail S).
    - destruct C as (_ & _ & S & _).
      apply (call_site_dot _ _ _ _ _ _ _ lang_submit_tail S).
    - destruct C as (_ & _ & S & _).
      apply (call_site_dot _ _ _ _ _ _ _ lang_submit_tail S).
    - destruct C as (_ & _ & S & _).
      apply (call_site_dot _ _ _ _ _ _ _ lang_submit_tail S). }
  destruct D as (body & D).
  apply (not_dot_In _ F).
  apply (In_slice _ txt (start_char_in_unit h) (end_char_in_unit h)).
  rewrite D. apply in_or_app. right. now left.
Qed.

Lemma X8_witness :
  forallb Char.not_dot (list_ascii_of_string sample_unterminated_text) = true
  /\ find_mm_purchasing_issues (Some sample_unterminated_text)
     = Ok [sample_unterminated_hit]
  /\ Forall (fun h => target_type h = "Transaction") [sample_unterminated_hit].
Proof.
  split; [reflexivity|].
  split; [vm_compute; reflexivity|].
  apply (X8_no_terminator_only_transactions sample_unterminated_text
           [sample_unterminated_hit]).
  - reflexivity.
  - vm_compute; reflexivity.
Defined.



(* ------------------------------------------------------------------ *)
(** ** Calls of the tables, with any text after the name *)

Lemma fm_lookup_key name info :
  fm_lookup name = Some info -> In name FUNC_NAMES.
Proof.
  unfold fm_lookup. intros H.
  assert (K : In name (dict_keys BAPI_MAP ++ dict_keys IDOC_MAP)).
  { apply in_or_app. destruct (dict_get BAPI_MAP name) eqn:D.
    - left. eapply dict_get_key; eauto.
    - right. eapply dict_get_key; eauto. }
  vm_compute in K. vm_compute.
  repeat (destruct K as [<-|K]; [tauto|]). destruct K.
Qed.

Lemma func_prefix_any A (k : cursor -> option A) name rest :
  In name FUNC_NAMES ->
  bt func_keyword
     (bt func_gap (bt (Grp "name" (names_re FUNC_NAMES)) (bt quote k)))
     (Cursor [] (list_ascii_of_string (FUNC_CALL ++ name ++ "'") ++ rest) [])
  = k (Cursor (rev (list_ascii_of_string (FUNC_CALL ++ name ++ "'"))) rest
              [("name", (15, 15 + len name))]).
Proof.
  intros I. vm_compute in I.
  repeat (destruct I as [<-|I]; [vm_compute; now destruct (k _)|]).
  destruct I.
Qed.

Lemma func_call_matches name params :
  In name FUNC_NAMES ->
  forallb Char.not_dot (list_ascii_of_string params) = true ->
  finditer (func_re FUNC_NAMES) (FUNC_CALL ++ name ++ "'" ++ params ++ ".")%string
  = [Match (FUNC_CALL ++ name ++ "'" ++ params ++ ".")%string
           [("full", (0, 17 + len name + len params));
            ("name", (15, 15 + len name))]].
Proof.
  intros I F. unfold finditer.
  set (txt := (FUNC_CALL ++ name ++ "'" ++ params ++ ".")%string).
  replace (2 * len txt + 2) with (S (S (2 * len txt))) by lia.
  assert (L : list_ascii_of_string txt
              = list_ascii_of_string (FUNC_CALL ++ name ++ "'")
                ++ list_ascii_of_string params ++ ["."%char]).
  { unfold txt. rewrite !list_of_append. now rewrite <- !app_assoc. }
  rewrite L.
  assert (N : len (FUNC_CALL ++ name ++ "'") = 16 + len name).
  { rewrite <- !length_list_of, !list_of_append, !length_app,
      !length_list_of. simpl. lia. }
  assert (B : bt (func_re FUNC_NAMES) (accept false 0)
                 (Cursor [] (list_ascii_of_string (FUNC_CALL ++ name ++ "'")
                             ++ list_ascii_of_string params ++ ["."%char]) [])
              = Some (Cursor ("."%char :: rev (list_ascii_of_string params)
                                ++ rev (list_ascii_of_string
                                          (FUNC_CALL ++ name ++ "'"))) []
                        [("full", (0, 17 + len name + len params));
                         ("name", (15, 15 + len name))])).
  { rewrite bt_func_re, func_prefix_any; [|exact I].
    apply to_dot_hit; [exact F|].
    unfold accept, set_mark, pos. cbn [andb bef aft marks].
    do 4 f_equal.
    cbn [length]. rewrite length_app, !length_rev, !length_list_of.
    rewrite N. f_equal. lia. }
  rewrite finditer_from_S.
  rewrite (@search_here (func_re FUNC_NAMES) false [] _ _ B).
  cbn [bef aft marks]. rewrite finditer_from_S, search_func_end.
  reflexivity.
Qed.

Lemma canonical_upper s : canonical s = true -> str_upper s = s.
Proof.
  unfold canonical, canonical_char.
  induction s as [|c s IH]; simpl; [reflexivity|].
  intros H. apply andb_true_iff in H. destruct H as [Hc H].
  apply andb_true_iff in Hc. destruct Hc as [_ Hc].
  apply Ascii.eqb_eq in Hc. now rewrite Hc, IH.
Qed.

Lemma func_call_pass name info params :
  fm_lookup name = Some info ->
  forallb Char.not_dot (list_ascii_of_string params) = true ->
  pass func_body (func_re FUNC_NAMES)
       (FUNC_CALL ++ name ++ "'" ++ params ++ ".")%string
  = Ok [fm_record name info (0, 17 + len name + len params)].
Proof.
  intros K F. pose proof (fm_lookup_key name info K) as I.
  unfold pass. rewrite (func_call_matches name params I F).
  cbn [for_each].
  assert (G : group (Match (FUNC_CALL ++ name ++ "'" ++ params ++ ".")%string
                       [("full", (0, 17 + len name + len params));
                        ("name", (15, 15 + len name))]) "name" = Some name).
  { unfold group, span.
    cbn [m_marks m_string lookup String.eqb Ascii.eqb Bool.eqb].
    f_equal. apply (slice_inner FUNC_CALL name ("'" ++ params ++ ".")). }
  assert (U : str_upper name = name).
  { apply canonical_upper.
    assert (C : forallb canonical FUNC_NAMES = true) by reflexivity.
    rewrite forallb_forall in C. now apply C. }
  unfold func_body, group_of, span_of. rewrite G. cbn [expect bind].
  rewrite U. unfold span.
  cbn [m_marks lookup String.eqb Ascii.eqb Bool.eqb expect bind].
  unfold fm_lookup in K. unfold fm_record, dict_mem.
  destruct (dict_get BAPI_MAP name) as [i|] eqn:DB.
  - inversion K; subst i. cbn [expect bind]. rewrite mk_func. reflexivity.
  - rewrite K. cbn [expect bind]. rewrite mk_func. reflexivity.
Qed.

(** X10. A call of any function module of the two tables, with any
    parameter text up to the terminator, is reported by exactly one
    FunctionModule record over the whole statement: it names the
    replacement of the table entry in a [CALL FUNCTION] statement, carries
    the note of the entry, and is ambiguous only for an IDoc handler that
    is replaced by itself. *)
Theorem X10_every_function_module_call_is_reported :
  forall (name : string) (info : fm_info) (params : string),
    fm_lookup name = Some info ->
    forallb Char.not_dot (list_ascii_of_string params) = true ->
    exists h1 h3,
      find_mm_purchasing_issues
        (Some (FUNC_CALL ++ name ++ "'" ++ params ++ "."))%string
      = Ok (h1 ++ [fm_record name info (0, 17 + len name + len params)] ++ h3)
      /\ Forall (fun h => target_type h = "Transaction") h1
      /\ Forall (fun h => target_type h = "Report") h3.
Proof.
  intros name info params K F.
  destruct (scan_spec (FUNC_CALL ++ name ++ "'" ++ params ++ ".")%string)
    as (h1 & h2 & h3 & h4 & h5 & E & _ & P2 & _ & _ & _
        & [F1 _] & _ & [F3 _] & [F4 _] & [F5 _]).
  rewrite (func_call_pass name info params K F) in P2.
  inversion P2; subst h2.
  exists h1, (h3 ++ h4 ++ h5). split; [exact E|]. split.
  - eapply Forall_impl; [|exact F1]. intros h C. apply C.
  - repeat (apply Forall_app; split).
    + eapply Forall_impl; [|exact F3]. intros h C. apply C.
    + eapply Forall_impl; [|exact F4]. intros h C. apply C.
    + eapply Forall_impl; [|exact F5]. intros h C. apply C.
Qed.

Lemma X10_witness :
  fm_lookup "BAPI_REQUISITION_DELETE"
  = Some (FmInfo "BAPI_PR_CHANGE" (Some "Delete via CHANGE in Enjoy BAPI."))
  /\ forallb Char.not_dot (list_ascii_of_string " EXPORTING number = n") = true
  /\ exists h1 h3,
       find_mm_purchasing_issues
         (Some (FUNC_CALL ++ "BAPI_REQUISITION_DELETE" ++ "'"
                ++ " EXPORTING number = n" ++ "."))%string
       = Ok (h1 ++ [fm_record "BAPI_REQUISITION_DELETE"
                      (FmInfo "BAPI_PR_CHANGE"
                         (Some "Delete via CHANGE in Enjoy BAPI."))
                      (0, 17 + len "BAPI_REQUISITION_DELETE"
                          + len " EXPORTING number = n")] ++ h3)
       /\ Forall (fun h => target_type h = "Transaction") h1
       /\ Forall (fun h => target_type h = "Report") h3.
Proof.
  split; [reflexivity|]. split; [reflexivity|].
  apply (X10_every_function_module_call_is_reported
           "BAPI_REQUISITION_DELETE"
           (FmInfo "BAPI_PR_CHANGE" (Some "Delete via CHANGE in Enjoy BAPI."))
           " EXPORTING number = n").
  - reflexivity.
  - reflexivity.
Defined.

Lemma arch47_prefix A (k : cursor -> option A) name rest :
  In name ARCH47_NAMES -> breaks (rest ++ ["."%char]) = true ->
  bt (Grp "stmt" submit_keyword)
     (bt ws1 (bt (Grp "name" (names_re ARCH47_NAMES)) (bt WordB k)))
     (Cursor [] (list_ascii_of_string ("SUBMIT " ++ name) ++ rest
                 ++ ["."%char]) [])
  = k (Cursor (rev (list_ascii_of_string ("SUBMIT " ++ name)))
              (rest ++ ["."%char])
              [("name", (7, 15)); ("stmt", (0, 6))]).
Proof.
  intros I B. unfold breaks in B. apply negb_true_iff in B.
  vm_compute in I.
  repeat (destruct I as [<-|I];
          [vm_compute; vm_compute in B; rewrite B; now destruct (k _)|]).
  destruct I.
Qed.

Lemma arch47_call_matches name rest :
  In name ARCH47_NAMES ->
  forallb Char.not_dot (list_ascii_of_string rest) = true ->
  breaks (list_ascii_of_string rest ++ ["."%char]) = true ->
  finditer ARCH47_RE ("SUBMIT " ++ name ++ rest ++ ".")%string
  = [Match ("SUBMIT " ++ name ++ rest ++ ".")%string
           [("full", (0, 16 + len rest)); ("name", (7, 15));
            ("stmt", (0, 6))]].
Proof.
  intros I F Br. unfold finditer.
  set (txt := ("SUBMIT " ++ name ++ rest ++ ".")%string).
  replace (2 * len txt + 2) with (S (S (2 * len txt))) by lia.
  assert (L : list_ascii_of_string txt
              = list_ascii_of_string ("SUBMIT " ++ name)
                ++ list_ascii_of_string rest ++ ["."%char]).
  { unfold txt. change ("SUBMIT " ++ name ++ rest ++ ".")%string
      with ("SUBMIT " ++ (name ++ rest ++ "."))%string.
    rewrite !list_of_append. now rewrite <- !app_assoc. }
  rewrite L.
  assert (N : len ("SUBMIT " ++ name) = 15).
  { vm_compute in I.
    repeat (destruct I as [<-|I]; [reflexivity|]). destruct I. }
  assert (B : bt ARCH47_RE (accept false 0)
                 (Cursor [] (list_ascii_of_string ("SUBMIT " ++ name)
                             ++ list_ascii_of_string rest ++ ["."%char]) [])
              = Some (Cursor ("."%char :: rev (list_ascii_of_string rest)
                                ++ rev (list_ascii_of_string
                                          ("SUBMIT " ++ name))) []
                        [("full", (0, 16 + len rest)); ("name", (7, 15));
                         ("stmt", (0, 6))])).
  { unfold ARCH47_RE. rewrite bt_submit_re, arch47_prefix; [|exact I|exact Br].
    apply to_dot_hit; [exact F|].
    unfold accept, set_mark, pos. cbn [andb bef aft marks].
    do 4 f_equal.
    cbn [length]. rewrite length_app, !length_rev, !length_list_of.
    rewrite N. f_equal. lia. }
  rewrite finditer_from_S.
  rewrite (@search_here ARCH47_RE false [] _ _ B).
  cbn [bef aft marks]. rewrite finditer_from_S.
  unfold ARCH47_RE at 1. rewrite search_submit_end.
  reflexivity.
Qed.

Lemma arch47_key name info :
  dict_get ARCHIVE_REPORT_MAP name = Some info -> In name ARCH47_NAMES.
Proof.
  intros D. apply dict_get_key in D. vm_compute in D. vm_compute.
  repeat (destruct D as [<-|D]; [tauto|]). destruct D.
Qed.

Lemma arch47_call_pass name info rest :
  dict_get ARCHIVE_REPORT_MAP name = Some info ->
  forallb Char.not_dot (list_ascii_of_string rest) = true ->
  breaks (list_ascii_of_string rest ++ ["."%char]) = true ->
  pass arch47_body ARCH47_RE ("SUBMIT " ++ name ++ rest ++ ".")%string
  = Ok [report_record name info (0, 16 + len rest)].
Proof.
  intros D F Br. pose proof (arch47_key name info D) as I.
  unfold pass. rewrite (arch47_call_matches name rest I F Br).
  cbn [for_each].
  assert (G : group (Match ("SUBMIT " ++ name ++ rest ++ ".")%string
                       [("full", (0, 16 + len rest)); ("name", (7, 15));
                        ("stmt", (0, 6))]) "name" = Some name).
  { unfold group, span.
    cbn [m_marks m_string lookup String.eqb Ascii.eqb Bool.eqb].
    f_equal. clear D. vm_compute in I.
    repeat (destruct I as [<-|I];
            [match goal with
             | |- slice _ _ _ = ?n =>
                 apply (slice_inner "SUBMIT " n (rest ++ "."))
             end|]).
    destruct I. }
  assert (U : str_upper name = name).
  { apply canonical_upper.
    assert (C : forallb canonical ARCH47_NAMES = true) by reflexivity.
    rewrite forallb_forall in C. now apply C. }
  unfold arch47_body, group_of, span_of. rewrite G. cbn [expect bind].
  rewrite U, D, mk_report. reflexivity.
Qed.

(** X11. A submission of any report of the table of the archived reports,
    with any text that starts off the name up to the terminator, is
    reported by exactly one record of the pass of that table, over the
    whole statement: it is not ambiguous, submits the replacement of the
    table entry, which is the old name with the suffix 47 turned into 70,
    and its note names the archiving object of the entry. *)
Theorem X11_every_archived_report_is_reported :
  forall (name : string) (info : report_info) (rest : string),
    dict_get ARCHIVE_REPORT_MAP name = Some info ->
    forallb Char.not_dot (list_ascii_of_string rest) = true ->
    breaks (list_ascii_of_string rest ++ ["."%char]) = true ->
    (exists hs hs',
       find_mm_purchasing_issues (Some ("SUBMIT " ++ name ++ rest ++ "."))%string
       = Ok (hs ++ [report_record name info (0, 16 + len rest)] ++ hs')
       /\ Forall (fun h => target_type h <> "Report") hs
       /\ Forall (fun h => ambiguous h = true) hs')
    /\ pass arch47_body ARCH47_RE ("SUBMIT " ++ name ++ rest ++ ".")%string
       = Ok [report_record name info (0, 16 + len rest)]
    /\ rp_new info = (substring 0 6 name ++ "70")%string
    /\ name = (substring 0 6 name ++ "47")%string.
Proof.
  intros name info rest D F Br.
  pose proof (arch47_call_pass name info rest D F Br) as P.
  split; [|split; [exact P|]].
  - destruct (scan_spec ("SUBMIT " ++ name ++ rest ++ ".")%string)
      as (h1 & h2 & h3 & h4 & h5 & E & _ & _ & P3 & _ & _
          & [F1 _] & [F2 _] & _ & [F4 _] & [F5 _]).
    rewrite P in P3. inversion P3; subst h3.
    exists (h1 ++ h2), (h4 ++ h5). split; [|split].
    + rewrite E. now rewrite <- !app_assoc.
    + apply Forall_app. split.
      * eapply Forall_impl; [|exact F1].
        intros h (_ & T & _). rewrite T. discriminate.
      * eapply Forall_impl; [|exact F2].
        intros h (_ & T & _). rewrite T. discriminate.
    + apply Forall_app. split.
      * eapply Forall_impl; [|exact F4]. intros h (_ & _ & _ & A & _). exact A.
      * eapply Forall_impl; [|exact F5]. intros h (_ & _ & _ & A & _). exact A.
  - apply dict_get_In in D. unfold ARCHIVE_REPORT_MAP in D. cbn [In] in D.
    repeat (destruct D as [D|D]; [inversion D; subst; split; reflexivity|]).
    destruct D.
Qed.

Lemma X11_witness :
  dict_get ARCHIVE_REPORT_MAP "RM06BW47"
  = Some (ReportInfo "RM06BW70" "MM_EBAN")
  /\ forallb Char.not_dot (list_ascii_of_string " WITH p = 1") = true
  /\ breaks (list_ascii_of_string " WITH p = 1" ++ ["."%char]) = true
  /\ (exists hs hs',
        find_mm_purchasing_issues
          (Some ("SUBMIT " ++ "RM06BW47" ++ " WITH p = 1" ++ "."))%string
        = Ok (hs ++ [report_record "RM06BW47"
                       (ReportInfo "RM06BW70" "MM_EBAN")
                       (0, 16 + len " WITH p = 1")] ++ hs')
        /\ Forall (fun h => target_type h <> "Report") hs
        /\ Forall (fun h => ambiguous h = true) hs')
  /\ pass arch47_body ARCH47_RE
          ("SUBMIT " ++ "RM06BW47" ++ " WITH p = 1" ++ ".")%string
     = Ok [report_record "RM06BW47" (ReportInfo "RM06BW70" "MM_EBAN")
             (0, 16 + len " WITH p = 1")]
  /\ rp_new (ReportInfo "RM06BW70" "MM_EBAN")
     = (substring 0 6 "RM06BW47" ++ "70")%string
  /\ "RM06BW47" = (substring 0 6 "RM06BW47" ++ "47")%string.
Proof.
  split; [reflexivity|]. split; [reflexivity|]. split; [reflexivity|].
  apply (X11_every_archived_report_is_reported
           "RM06BW47" (ReportInfo "RM06BW70" "MM_EBAN") " WITH p = 1");
    reflexivity.
Defined.

(** X12. The names of the remote-call pattern and of the read-only
    pattern are taken from sets, whose order of iteration is not fixed:
    whatever the order of the names in the two alternations, the two
    loops yield the same records. *)
Theorem X12_set_order_is_irrelevant :
  forall (fns rns : list string) (txt : string),
    Permutation FUNC_NAMES fns -> Permutation READ_REPORTS rns ->
    pass func_body (func_re fns) txt
    = pass func_body (func_re FUNC_NAMES) txt
    /\ pass read_body (submit_re (names_re rns)) txt
       = pass read_body READ_RE txt.
Proof.
  intros fns rns txt Pf Pr. unfold pass.
  rewrite (@func_names_order_irrelevant fns txt Pf).
  rewrite (@read_names_order_irrelevant rns txt Pr).
  split; reflexivity.
Qed.

Lemma X12_witness :
  Permutation FUNC_NAMES (rev FUNC_NAMES)
  /\ Permutation READ_REPORTS (rev READ_REPORTS)
  /\ pass func_body (func_re (rev FUNC_NAMES)) sample_two_calls_text
     = pass func_body (func_re FUNC_NAMES) sample_two_calls_text
  /\ pass read_body (submit_re (names_re (rev READ_REPORTS)))
          sample_two_calls_text
     = pass read_body READ_RE sample_two_calls_text.
Proof.
  split; [apply Permutation_rev|]. split; [apply Permutation_rev|].
  apply (X12_set_order_is_irrelevant (rev FUNC_NAMES) (rev READ_REPORTS)
           sample_two_calls_text).
  - apply Permutation_rev.
  - apply Permutation_rev.
Defined.

(** X13. When the suggestion builder raises: only [IndexError], and
    exactly for the kinds [func] and [report] with an empty list of
    replacements.  For the kind [txn] it never raises, and an unknown
    kind gives the empty statement.  The old name plays no part. *)
Theorem X13_when_the_builder_raises :
  forall (kind old other : string) (news : list string) (stmt : string),
    match _mk_suggested_statement kind old news stmt with
    | Raise e =>
        e = IndexError /\ (kind = "func" \/ kind = "report") /\ news = []
    | Ok s =>
        ~ ((kind = "func" \/ kind = "report") /\ news = [])
        /\ (kind <> "txn" -> kind <> "func" -> kind <> "report" -> s = "")
    end
    /\ _mk_suggested_statement kind other news stmt
       = _mk_suggested_statement kind old news stmt.
Proof.
  intros kind old other news stmt. split; [|reflexivity].
  unfold _mk_suggested_statement.
  destruct (String.eqb_spec kind "txn") as [->|Nt].
  - destruct news as [|n [|n' ns]]; simpl;
      destruct (startswith (str_upper stmt) "SUBMIT");
      (split; [intros [[H|H] _]; discriminate H | congruence]).
  - destruct (String.eqb_spec kind "func") as [->|Nf].
    + destruct news as [|n ns]; simpl.
      * auto.
      * split; [intros [_ H]; discriminate H | congruence].
    + destruct (String.eqb_spec kind "report") as [->|Nr].
      * destruct news as [|n ns]; simpl.
        -- auto.
        -- split; [intros [_ H]; discriminate H | congruence].
      * split; [intros [[H|H] _]; congruence | reflexivity].
Qed.

(* ------------------------------------------------------------------ *)
(** ** The transaction pattern looks no further than the code *)

Lemma star_total A p (k : cursor -> option A) :
  (forall c, exists x, k c = Some x) ->
  forall a b mk, exists x, star p k b a mk = Some x.
Proof.
  intros T. induction a as [|y a IH]; intros b mk; simpl; [apply T|].
  destruct (p y); [|apply T].
  destruct (IH (y :: b) mk) as (x & ->). eauto.
Qed.

Lemma opt_total A r (k : cursor -> option A) :
  (forall c, exists x, k c = Some x) ->
  forall c, exists x, bt (Opt r) k c = Some x.
Proof.
  intros T c. simpl. destruct (bt r k c); [eauto | apply T].
Qed.

(** The tail of the transaction pattern matches everywhere. *)
Lemma txn_tail_total A (k : cursor -> option A) :
  (forall c, exists x, k c = Some x) ->
  forall c, exists x, bt txn_tail k c = Some x.
Proof.
  intros T c. unfold txn_tail. cbn [bt].
  apply opt_total. intros d. unfold ws0. cbn [bt].
  apply star_total. intros e. now apply opt_total.
Qed.

Lemma bt_txn_re A (k : cursor -> option A) c :
  bt TXN_RE k c
  = bt (Grp "stmt" txn_keyword)
       (bt txn_gap
          (bt (Grp "name" (names_re TXN_NAMES))
             (bt txn_tail
                (fun c' => k (set_mark "full" (pos c, pos c') c')))))
       c.
Proof. reflexivity. Qed.

Lemma txn_prefix A (k : cursor -> option A) kw code rest :
  In kw TXN_KEYWORDS -> In code TXN_NAMES ->
  bt (Grp "stmt" txn_keyword)
     (bt txn_gap (bt (Grp "name" (names_re TXN_NAMES)) k))
     (Cursor [] (list_ascii_of_string (kw ++ " " ++ code) ++ rest) [])
  = k (Cursor (rev (list_ascii_of_string (kw ++ " " ++ code))) rest
              [("name", (len kw + 1, len kw + 5)); ("stmt", (0, len kw))]).
Proof.
  intros K I. simpl in K. vm_compute in I.
  destruct K as [<-|[<-|[]]];
    repeat (destruct I as [<-|I]; [vm_compute; now destruct (k _)|]);
    destruct I.
Qed.

(** The first match of the transaction pattern in an invocation of a
    deprecated code, whatever follows the code. *)
Lemma txn_first_match kw code suffix :
  In kw TXN_KEYWORDS -> In code TXN_NAMES ->
  exists e ms,
    finditer TXN_RE (kw ++ " " ++ code ++ suffix)%string
    = Match (kw ++ " " ++ code ++ suffix)%string
            [("full", (0, e)); ("name", (len kw + 1, len kw + 5));
             ("stmt", (0, len kw))] :: ms
    /\ len (kw ++ " " ++ code) <= e.
Proof.
  intros K I. unfold finditer.
  set (txt := (kw ++ " " ++ code ++ suffix)%string).
  replace (2 * len txt + 2) with (S (S (2 * len txt))) by lia.
  assert (L : list_ascii_of_string txt
              = list_ascii_of_string (kw ++ " " ++ code)
                ++ list_ascii_of_string suffix).
  { unfold txt. rewrite !list_of_append. now rewrite <- !app_assoc. }
  rewrite L.
  set (k := fun c' : cursor => accept false 0 (set_mark "full" (0, pos c') c')).
  assert (T : forall c, exists x, k c = Some x)
    by (intros c; unfold k, accept; cbn [andb]; eauto).
  set (c1 := Cursor (rev (list_ascii_of_string (kw ++ " " ++ code)))
                    (list_ascii_of_string suffix)
                    [("name", (len kw + 1, len kw + 5)); ("stmt", (0, len kw))]).
  destruct (txn_tail_total _ k T c1) as (x & Bx).
  destruct (@bt_sound _ _ _ _ _ Bx) as (c' & D & Kx).
  destruct (@den_plain_step txn_tail c1 c' eq_refl D) as (w & [W M] & _).
  pose proof (walk_pos W) as Hp.
  assert (B : bt TXN_RE (accept false 0)
                 (Cursor [] (list_ascii_of_string (kw ++ " " ++ code)
                             ++ list_ascii_of_string suffix) [])
              = Some x).
  { rewrite bt_txn_re, txn_prefix; [|exact K|exact I]. exact Bx. }
  rewrite finditer_from_S.
  rewrite (@search_here TXN_RE false [] _ _ B).
  unfold k, accept in Kx. cbn [andb] in Kx. inversion Kx; subst x.
  cbn [marks set_mark]. rewrite M.
  exists (pos c'). eexists. split; [reflexivity|].
  rewrite Hp. unfold c1, pos. cbn [bef].
  rewrite length_rev, length_list_of. lia.
Qed.

Lemma txn_key_name code : In code (dict_keys TXN_MAP) -> In code TXN_NAMES.
Proof.
  intros I. vm_compute in I. vm_compute.
  repeat (destruct I as [<-|I]; [tauto|]). destruct I.
Qed.

(** X14. The transaction pattern looks no further than the code: an
    invocation of a deprecated code by either keyword is reported by the
    first record of the scan, a Transaction record for that code that
    starts at the keyword and covers the code, whatever text follows the
    code, be it more letters of a longer identifier. *)
Theorem X14_transaction_reported_whatever_follows :
  forall (kw code suffix : string),
    In kw TXN_KEYWORDS -> In code (dict_keys TXN_MAP) ->
    exists h recs,
      find_mm_purchasing_issues (Some (kw ++ " " ++ code ++ suffix))%string
      = Ok (h :: recs)
      /\ target_type h = "Transaction" /\ target_name h = code
      /\ start_char_in_unit h = 0
      /\ len (kw ++ " " ++ code) <= end_char_in_unit h.
Proof.
  intros kw code suffix K I0. pose proof (txn_key_name code I0) as I.
  set (txt := (kw ++ " " ++ code ++ suffix)%string).
  destruct (txn_first_match kw code suffix K I) as (e & ms & Fm & Le).
  fold txt in Fm.
  destruct (scan_spec txt) as (h1 & h2 & h3 & h4 & h5 & E & P1 & _).
  destruct (@finditer_framed true txn_keyword txn_gap (names_re TXN_NAMES)
              txn_tail txt eq_refl eq_refl eq_refl eq_refl) as [G O].
  change (framed true txn_keyword txn_gap (names_re TXN_NAMES) txn_tail)
    with TXN_RE in G, O.
  rewrite Fm in G, O. inversion G as [|m0 ms0 Gm Gms]; subst m0 ms0.
  simpl in O. destruct O as (_ & _ & _ & O).
  destruct (@for_each_hits _ (txn_hit txt) txn_body (@txn_body_spec txt)
              ms _ _ Gms O) as (hs & Eh & _).
  set (m := Match txt [("full", (0, e)); ("name", (len kw + 1, len kw + 5));
                       ("stmt", (0, len kw))]) in *.
  assert (Gs : group m "stmt" = Some kw).
  { unfold group, span, m.
    cbn [m_marks m_string lookup String.eqb Ascii.eqb Bool.eqb].
    f_equal. apply (slice_inner "" kw (" " ++ code ++ suffix)). }
  assert (Gn : group m "name" = Some code).
  { unfold group, span, m.
    cbn [m_marks m_string lookup String.eqb Ascii.eqb Bool.eqb].
    f_equal. clear - K I. unfold txt. simpl in K. vm_compute in I.
    destruct K as [<-|[<-|[]]];
      repeat (destruct I as [<-|I];
              [match goal with
               | |- slice (?k ++ _) _ _ = ?n =>
                   apply (slice_inner (k ++ " ") n suffix)
               end|]);
      destruct I. }
  assert (U : str_upper code = code).
  { apply canonical_upper.
    assert (C : forallb canonical TXN_NAMES = true) by reflexivity.
    rewrite forallb_forall in C. now apply C. }
  destruct (txn_key_repls code I) as (r & rs & D).
  destruct (mk_txn_ok code (r :: rs) kw) as (s & Ms).
  unfold pass in P1. rewrite Fm in P1. cbn [for_each] in P1.
  unfold txn_body at 1, group_of, span_of in P1.
  rewrite Gs, Gn in P1. cbn [expect bind] in P1.
  rewrite U, D, Ms in P1. unfold span in P1.
  cbn [m m_marks lookup String.eqb Ascii.eqb Bool.eqb expect bind] in P1.
  rewrite Eh in P1. inversion P1; subst h1.
  unfold _add_hit in E. cbn [app] in E.
  eexists. exists (hs ++ h2 ++ h3 ++ h4 ++ h5).
  split; [exact E|]. cbn. splits; auto.
Qed.

Lemma X14_witness :
  In "CALL TRANSACTION" TXN_KEYWORDS /\ In "ME21" (dict_keys TXN_MAP)
  /\ exists h recs,
       find_mm_purchasing_issues
         (Some ("CALL TRANSACTION" ++ " " ++ "ME21" ++ "N AND SKIP FIRST SCREEN."))%string
       = Ok (h :: recs)
       /\ target_type h = "Transaction" /\ target_name h = "ME21"
       /\ start_char_in_unit h = 0
       /\ len ("CALL TRANSACTION" ++ " " ++ "ME21") <= end_char_in_unit h.
Proof.
  split; [left; reflexivity|]. split; [left; reflexivity|].
  apply (X14_transaction_reported_whatever_follows
           "CALL TRANSACTION" "ME21" "N AND SKIP FIRST SCREEN.").
  - left; reflexivity.
  - left; reflexivity.
Defined.

(* ------------------------------------------------------------------ *)
(** ** How a call site opens *)

Lemma disjoint_chars_spec p q y :
  disjoint_chars p q = true -> p y = true -> q y = true -> False.
Proof.
  intros D P Q. pose proof (forall_ascii _ D y) as H. simpl in H.
  rewrite P, Q in H. discriminate H.
Qed.

Lemma skip_ws_run sp x r :
  forallb Char.is_space sp = true -> Char.is_space x = false ->
  skip_ws (sp ++ x :: r) = x :: r.
Proof.
  intros F X. induction sp as [|y sp IH]; simpl.
  - now rewrite X.
  - simpl in F. apply andb_true_iff in F. destruct F as [Y F].
    rewrite Y. now apply IH.
Qed.

Lemma ci_eqs_length s w : ci_eqs s w -> length w = len s.
Proof.
  unfold ci_eqs. intros H. apply Forall2_length in H.
  now rewrite <- H, length_list_of.
Qed.

Lemma ci_eqs_head a s w :
  ci_eqs (String a s) w -> exists x w', w = x :: w' /\ Char.ci_eq a x = true.
Proof.
  unfold ci_eqs. simpl. intros H. inversion H; subst. eauto.
Qed.

Lemma names_head a ns w :
  ns <> [] -> all_start_with a ns = true -> lang (names_re ns) w ->
  exists x w', w = x :: w' /\ Char.ci_eq a x = true.
Proof.
  intros N S L. destruct (lang_names ns w N L) as (n & I & E).
  unfold all_start_with in S. rewrite forallb_forall in S.
  specialize (S n I). destruct n as [|c n]; [discriminate|].
  apply Ascii.eqb_eq in S. subst c. eapply ci_eqs_head; eauto.
Qed.

Lemma lang_ws1 sp :
  lang ws1 sp ->
  exists y b, sp = y :: b /\ forallb Char.is_space (y :: b) = true.
Proof.
  intros (u & b & -> & (y & Y & ->) & B). exists y, b.
  split; [reflexivity|]. simpl. now rewrite Y, B.
Qed.

(** The shape that yields [opens]. *)
Lemma opens_intro (a b : ascii -> bool) k sp x r y k' :
  k = y :: k' -> a y = true ->
  forallb Char.is_space sp = true -> Char.is_space x = false ->
  b x = true ->
  opens a b (length k) (k ++ sp ++ x :: r).
Proof.
  intros -> A S X B. exists y, x. split; [reflexivity|]. split; [exact A|].
  split; [|exact B].
  rewrite skipn_app, skipn_all, Nat.sub_diag. cbn [skipn app].
  now rewrite skip_ws_run.
Qed.

Lemma opens_head a b n a' b' n' T :
  disjoint_chars a a' = true -> opens a b n T -> opens a' b' n' T -> False.
Proof.
  intros D (y & x & H & A & _) (y' & x' & H' & A' & _).
  rewrite H in H'. inversion H'; subst y'.
  eapply disjoint_chars_spec; eauto.
Qed.

Lemma opens_next a b a' b' n T :
  disjoint_chars b b' = true -> opens a b n T -> opens a' b' n T -> False.
Proof.
  intros D (y & x & _ & _ & H & B) (y' & x' & _ & _ & H' & B').
  rewrite H in H'. inversion H'; subst x'.
  eapply disjoint_chars_spec; eauto.
Qed.

Lemma not_space (p : ascii -> bool) x :
  disjoint_chars p Char.is_space = true -> p x = true ->
  Char.is_space x = false.
Proof.
  intros D P. destruct (Char.is_space x) eqn:S; [|reflexivity].
  exfalso. eapply disjoint_chars_spec; eauto.
Qed.

(** A keyword of two words, [first] and a word that starts with [c]. *)
Lemma two_words_open first c second wk rest :
  (exists a s, first = String a s) ->
  lang (Seq (LitI first) (Seq ws1 (LitI (String c second)))) wk ->
  disjoint_chars (Char.ci_eq c) Char.is_space = true ->
  exists a,
    (exists s, first = String a s)
    /\ opens (Char.ci_eq a) (Char.ci_eq c) (len first) (wk ++ rest).
Proof.
  intros (a & s & ->) (u & v & -> & Lu & sp & w & -> & Ls & Lw) D.
  exists a. split; [eauto|].
  destruct (ci_eqs_head _ _ _ Lu) as (y & u' & -> & Y).
  destruct (lang_ws1 sp Ls) as (y1 & b & -> & S).
  destruct (ci_eqs_head _ _ _ Lw) as (x & w' & -> & X).
  rewrite <- (ci_eqs_length _ _ Lu).
  replace (((y :: u') ++ (y1 :: b) ++ x :: w') ++ rest)
    with ((y :: u') ++ (y1 :: b) ++ x :: (w' ++ rest))
    by (now rewrite <- !app_assoc).
  eapply opens_intro; eauto. eapply not_space; eauto.
Qed.

(** A one-word keyword [key], white space, and then a character of the
    class [b] that is no white space. *)
Lemma one_word_open a s b wk sp x r :
  ci_eqs (String a s) wk -> lang ws1 sp ->
  b x = true -> disjoint_chars b Char.is_space = true ->
  opens (Char.ci_eq a) b (len (String a s)) (wk ++ sp ++ x :: r).
Proof.
  intros Lk Ls B D.
  destruct (ci_eqs_head _ _ _ Lk) as (y & u' & -> & Y).
  destruct (lang_ws1 sp Ls) as (y1 & c & -> & S).
  rewrite <- (ci_eqs_length _ _ Lk).
  eapply opens_intro; eauto. eapply not_space; eauto.
Qed.

Lemma slice_starts t i j w :
  list_ascii_of_string (slice t i j) = w ->
  exists rest, skipn i (list_ascii_of_string t) = w ++ rest.
Proof.
  intros <-. unfold slice. rewrite list_of_substring.
  exists (skipn (j - i) (skipn i (list_ascii_of_string t))).
  symmetry. apply firstn_skipn.
Qed.

Lemma txn_opens txt h :
  txn_hit txt h ->
  opens (Char.ci_eq "C") (Char.ci_eq "T") 4
        (skipn (start_char_in_unit h) (list_ascii_of_string txt))
  \/ opens (Char.ci_eq "S") quote_or_m 6
           (skipn (start_char_in_unit h) (list_ascii_of_string txt)).
Proof.
  intros (_ & _ & wk & wg & wn & wt & repls & S & Lk & Lg & Ln & _).
  destruct (slice_starts _ _ _ _ S) as (rest & ->).
  destruct Lk as [Lk|Lk].
  - left.
    destruct (two_words_open "CALL" "T" "RANSACTION" wk
                (wg ++ wn ++ wt ++ rest)) as (a & (s & Ea) & O);
      [eauto | exact Lk | reflexivity |].
    inversion Ea; subst a s.
    now rewrite <- !app_assoc.
  - right. destruct Lg as (sp & q & -> & Ls & Lq).
    destruct Lq as [(qc & Q & ->)| ->].
    + replace ((wk ++ (sp ++ [qc]) ++ wn ++ wt) ++ rest)
        with (wk ++ sp ++ qc :: (wn ++ wt ++ rest))
        by (now rewrite <- !app_assoc).
      apply (one_word_open "S" "UBMIT" quote_or_m); auto.
      unfold quote_or_m. now rewrite Q.
    + destruct (names_head "M" TXN_NAMES wn) as (x & wn' & -> & X);
        [discriminate | reflexivity | exact Ln |].
      replace ((wk ++ (sp ++ []) ++ (x :: wn') ++ wt) ++ rest)
        with (wk ++ sp ++ x :: (wn' ++ wt ++ rest))
        by (rewrite app_nil_r; now rewrite <- !app_assoc).
      apply (one_word_open "S" "UBMIT" quote_or_m); auto.
      unfold quote_or_m. rewrite X. apply orb_true_r.
Qed.

Lemma func_opens names txt sp name :
  call_site func_keyword func_gap (names_re names) func_tail txt sp name ->
  opens (Char.ci_eq "C") (Char.ci_eq "F") 4
        (skipn (fst sp) (list_ascii_of_string txt)).
Proof.
  intros (wk & wg & wn & wt & S & Lk & _).
  destruct (slice_starts _ _ _ _ S) as (rest & ->).
  destruct (two_words_open "CALL" "F" "UNCTION" wk
              (wg ++ wn ++ wt ++ rest)) as (a & (s & Ea) & O);
    [eauto | exact Lk | reflexivity |].
  inversion Ea; subst a s.
  now rewrite <- !app_assoc.
Qed.

Lemma report_opens nm txt sp name :
  (forall w, lang nm w ->
             exists x w', w = x :: w' /\ Char.ci_eq "R" x = true) ->
  call_site submit_keyword ws1 nm submit_tail txt sp name ->
  opens (Char.ci_eq "S") (Char.ci_eq "R") 6
        (skipn (fst sp) (list_ascii_of_string txt)).
Proof.
  intros N (wk & wg & wn & wt & S & Lk & Lg & Ln & _).
  destruct (slice_starts _ _ _ _ S) as (rest & ->).
  destruct (N wn Ln) as (x & wn' & -> & X).
  replace ((wk ++ wg ++ (x :: wn') ++ wt) ++ rest)
    with (wk ++ wg ++ x :: (wn' ++ wt ++ rest))
    by (now rewrite <- !app_assoc).
  apply (one_word_open "S" "UBMIT" (Char.ci_eq "R")); auto.
Qed.

Lemma arch30_head w :
  lang arch30_name w ->
  exists x w', w = x :: w' /\ Char.ci_eq "R" x = true.
Proof.
  intros (u & v & -> & Lu & _).
  destruct (names_head "R" ARCHIVE_30_PREFIXES u) as (x & u' & -> & X);
    [discriminate | reflexivity | exact Lu |].
  exists x, (u' ++ v). auto.
Qed.

(** How the call site of a record opens, by the kind of the record. *)
Lemma hit_opens txt recs h :
  find_mm_purchasing_issues (Some txt) = Ok recs -> In h recs ->
  let T := skipn (start_char_in_unit h) (list_ascii_of_string txt) in
  (target_type h = "Transaction"
   /\ (opens (Char.ci_eq "C") (Char.ci_eq "T") 4 T
       \/ opens (Char.ci_eq "S") quote_or_m 6 T))
  \/ (target_type h = "FunctionModule"
      /\ opens (Char.ci_eq "C") (Char.ci_eq "F") 4 T)
  \/ (target_type h = "Report"
      /\ opens (Char.ci_eq "S") (Char.ci_eq "R") 6 T).
Proof.
  intros E H T.
  destruct (@scan_hit_cases _ _ _ E H) as ([C|[C|[C|[C|C]]]] & _).
  - left. split; [apply C | now apply txn_opens].
  - right; left. destruct C as (_ & Ty & S & _). split; [exact Ty|].
    apply (func_opens _ _ _ _ S).
  - right; right. destruct C as (_ & Ty & S & _). split; [exact Ty|].
    refine (report_opens _ _ _ _ _ S). intros w L.
    apply (names_head "R" ARCH47_NAMES); [discriminate | reflexivity | exact L].
  - right; right. destruct C as (_ & Ty & S & _). split; [exact Ty|].
    refine (report_opens _ _ _ _ arch30_head S).
  - right; right. destruct C as (_ & Ty & S & _). split; [exact Ty|].
    refine (report_opens _ _ _ _ _ S). intros w L.
    apply (names_head "R" READ_REPORTS); [discriminate | reflexivity | exact L].
Qed.

(** X15. No position of the text is reported under two kinds: two
    records of a scan that start at the same position have the same
    [target_type]. *)
Theorem X15_one_kind_per_position :
  forall (txt : string) (recs : list hit) (h h' : hit),
    find_mm_purchasing_issues (Some txt) = Ok recs ->
    In h recs -> In h' recs ->
    start_char_in_unit h = start_char_in_unit h' ->
    target_type h = target_type h'.
Proof.
  intros txt recs h h' E H H' S.
  pose proof (hit_opens txt recs h E H) as O.
  pose proof (hit_opens txt recs h' E H') as O'.
  cbv zeta in O, O'. rewrite <- S in O'.
  destruct O as [[T [O|O]]|[[T O]|[T O]]];
    destruct O' as [[T' [O'|O']]|[[T' O']|[T' O']]];
    try congruence; exfalso;
    first [ refine (opens_head _ _ _ _ _ _ _ _ O O'); reflexivity
          | refine (opens_next _ _ _ _ _ _ _ O O'); reflexivity ].
Qed.

Lemma X15_witness :
  find_mm_purchasing_issues (Some sample_read_text)
  = Ok [sample_generic_hit; read_report_hit "RM06ER30" (0, 16)]
  /\ In sample_generic_hit
        [sample_generic_hit; read_report_hit "RM06ER30" (0, 16)]
  /\ In (read_report_hit "RM06ER30" (0, 16))
        [sample_generic_hit; read_report_hit "RM06ER30" (0, 16)]
  /\ start_char_in_unit sample_generic_hit
     = start_char_in_unit (read_report_hit "RM06ER30" (0, 16))
  /\ target_type sample_generic_hit
     = target_type (read_report_hit "RM06ER30" (0, 16)).
Proof.
  split; [vm_compute; reflexivity|].
  split; [left; reflexivity|].
  split; [right; left; reflexivity|].
  split; [reflexivity|].
  apply (X15_one_kind_per_position sample_read_text
           [sample_generic_hit; read_report_hit "RM06ER30" (0, 16)]).
  - vm_compute; reflexivity.
  - left; reflexivity.
  - right; left; reflexivity.
  - reflexivity.
Defined.
